(** * Top-3 coaches DAG: the transform and load steps

    A shallow embedding of [dags/coaches_top3_dag.py]: the body of
    [transform_data] (filter the first places, two inner merges, group by
    coach name, sort by count, keep three) and of [load_to_database]
    (create the table if needed, delete its rows, append the new ones,
    commit).  The pandas and sqlite3 calls are modelled by what they do
    on the typed records the tasks exchange. *)

From Stdlib Require Import String Ascii.
From Stdlib Require Import List ZArith Lia Bool Arith DecimalString.
From Stdlib Require Import Permutation Sorted.
Import ListNotations.
Open Scope string_scope.
Open Scope list_scope.
Open Scope Z_scope.

Set Implicit Arguments.

(** ** Records exchanged through XCom *)

(** A row of [results.json]: the code reads [athlete_id] and [place]. *)
Record Result := mkResult { r_athlete_id : Z; r_place : Z }.

(** A row of [athletes.csv]: the code reads [athlete_id] and [coach_id]. *)
Record Athlete := mkAthlete { a_athlete_id : Z; a_coach_id : Z }.

(** A row of [coaches.xlsx]: the code reads [coach_id] and [coach_name]. *)
Record Coach := mkCoach { c_coach_id : Z; c_coach_name : string }.

(** A record of [top_coaches.to_dict('records')]. *)
Record RankingEntry := mkEntry { coach_name : string; first_places : Z }.

(** A row of [winners.merge(df_athletes).merge(df_coaches)]; the other
    columns of the three frames are carried along and never read. *)
Record MergedRow := mkMerged {
  m_athlete_id : Z; m_place : Z; m_coach_id : Z; m_coach_name : string }.

(** ** Python exceptions *)

Inductive Exception :=
| KeyError (column : string)
| OperationalError (msg : string)
| OverflowError (msg : string).

Inductive Exn (A : Type) :=
| Ok (a : A)
| Raise (e : Exception).
Arguments Raise {A} e.

Definition bind {A B} (m : Exn A) (k : A -> Exn B) : Exn B :=
  match m with
  | Ok a => k a
  | Raise e => Raise e
  end.

Notation "x <- m ;; k" := (bind m (fun x => k))
  (at level 61, m at next level, right associativity).

(** ** Data frames *)

(** [pd.DataFrame(records)]: a frame built from an empty list (or from
    [None]) has no columns at all; a frame built from records has their
    columns, and keeps them when a filter or a merge leaves no row. *)
Inductive DataFrame (R : Type) :=
| NoColumns
| Frame (rows : list R).
Arguments NoColumns {R}.

Definition DataFrame_of_records {R} (data : list R) : DataFrame R :=
  match data with
  | [] => NoColumns
  | _ :: _ => Frame data
  end.

(** [df[df[col] == v]]: reading the column raises [KeyError] on a frame
    without columns. *)
Definition select_eq {R} (col : string) (get : R -> Z) (v : Z)
    (df : DataFrame R) : Exn (list R) :=
  match df with
  | NoColumns => Raise (KeyError col)
  | Frame rows => Ok (filter (fun r => get r =? v) rows)
  end.

(** [left.merge(right, on=col)], an inner join: every left row is paired
    with every right row of equal key; the key must be a column of the
    right frame. *)
Definition inner_join {L R M} (lkey : L -> Z) (rkey : R -> Z)
    (pair : L -> R -> M) (left : list L) (right : list R) : list M :=
  flat_map (fun l => map (pair l) (filter (fun r => rkey r =? lkey l) right))
           left.

Definition merge {L R M} (col : string) (lkey : L -> Z) (rkey : R -> Z)
    (pair : L -> R -> M) (left : list L) (right : DataFrame R)
    : Exn (list M) :=
  match right with
  | NoColumns => Raise (KeyError col)
  | Frame rows => Ok (inner_join lkey rkey pair left rows)
  end.

(** ** Sorting *)

(** Insertion sort, used for the group keys and as numpy's sort of short
    arrays. *)
Section Insertion.
Context {A : Type} (leb : A -> A -> bool).

Fixpoint insert (x : A) (l : list A) : list A :=
  match l with
  | [] => [x]
  | y :: t => if leb x y then x :: l else y :: insert x t
  end.

Fixpoint isort (l : list A) : list A :=
  match l with
  | [] => []
  | x :: t => insert x (isort t)
  end.
End Insertion.

(** [ndarray.argsort(kind='quicksort')] on an int64 array: the positions
    of the array, each once, in ascending order of their values.  numpy
    does not specify the order of equal values, so the development is
    carried out for any argsort with these two properties. *)
Class ArgSort := {
  argsort : list Z -> list nat;
  argsort_perm : forall ks, Permutation (argsort ks) (seq 0 (length ks));
  argsort_sorted : forall ks,
    StronglySorted Z.le (map (fun i => nth i ks 0) (argsort ks))
}.

(** numpy's generic quicksort is an insertion sort on at most 16
    elements: equal values keep their order. *)
Definition leb_snd (p q : nat * Z) : bool := snd p <=? snd q.

Definition insertion_argsort (ks : list Z) : list nat :=
  map fst (isort leb_snd (combine (seq 0 (length ks)) ks)).

(** A sort other than numpy's, which leaves equal values in the
    opposite order: the laws of [ArgSort] do not fix the order on ties. *)
Definition leb_snd_rev (p q : nat * Z) : bool :=
  (snd p <? snd q) || ((snd p =? snd q) && (fst q <=? fst p)%nat).

Definition reversing_argsort (ks : list Z) : list nat :=
  map fst (isort leb_snd_rev (combine (seq 0 (length ks)) ks)).

(** ** groupby / size / sort_values / head *)

(** [pandas.unique]: the distinct values in order of first appearance. *)
Fixpoint unique (l : list string) : list string :=
  match l with
  | [] => []
  | x :: t => x :: filter (fun y => negb (String.eqb x y)) (unique t)
  end.

(** [df.groupby('coach_name').size().reset_index(name='first_places')]:
    one row per distinct name, names ascending, with the number of rows
    of the group.  The count is an int64; it is the length of a list held
    in memory and stays far below 2^63. *)
Definition group_size (names : list string) (n : string) : Z :=
  Z.of_nat (length (filter (String.eqb n) names)).

Definition groupby_size (names : list string) : list RankingEntry :=
  map (fun n => mkEntry n (group_size names n))
      (isort String.leb (unique names)).

Definition take {R} (d : R) (rows : list R) (indexer : list nat) : list R :=
  map (fun i => nth i rows d) indexer.

(** [pandas.core.sorting.nargsort(k, kind='quicksort', ascending=False)]:
    the keys and their positions are reversed, sorted ascending, and the
    resulting indexer is reversed again. *)
Definition nargsort_desc `{ArgSort} (keys : list Z) : list nat :=
  let idx := seq 0 (length keys) in
  let non_nans := rev keys in
  let non_nan_idx := rev idx in
  rev (take 0%nat non_nan_idx (argsort non_nans)).

(** [df.sort_values('first_places', ascending=False)] *)
Definition sort_values_desc `{ArgSort} (df : list RankingEntry)
    : list RankingEntry :=
  take (mkEntry "" 0) df (nargsort_desc (map first_places df)).

(** [df.head(n)] *)
Definition head {R} (n : nat) (df : list R) : list R := firstn n df.

(** ** The transform step *)

(** The rows the two merges build from a matching pair. *)
Definition pair_athlete (r : Result) (a : Athlete) : Result * Athlete := (r, a).

Definition pair_coach (ra : Result * Athlete) (c : Coach) : MergedRow :=
  mkMerged (r_athlete_id (fst ra)) (r_place (fst ra))
           (c_coach_id c) (c_coach_name c).

(** Lines 91-98: the ranking of the merged rows. *)
Definition top_coaches_of `{ArgSort} (merged : list MergedRow)
    : list RankingEntry :=
  head 3 (sort_values_desc (groupby_size (map m_coach_name merged))).

(** Lines 81-98 of [transform_data]. *)
Definition compute_top_k `{ArgSort}
    (results_data : list Result) (athletes_data : list Athlete)
    (coaches_data : list Coach) : Exn (list RankingEntry) :=
  let df_athletes := DataFrame_of_records athletes_data in
  let df_coaches := DataFrame_of_records coaches_data in
  let df_results := DataFrame_of_records results_data in
  winners <- select_eq "place" r_place 1 df_results ;;
  with_athletes <- merge "athlete_id" r_athlete_id a_athlete_id
                         pair_athlete winners df_athletes ;;
  merged <- merge "coach_id" (fun ra => a_coach_id (snd ra)) c_coach_id
                  pair_coach with_athletes df_coaches ;;
  Ok (top_coaches_of merged).

(** ** XCom *)

(** The values the tasks push and pull, by key; a key never pushed is
    pulled as [None]. *)
Record XCom := mkXCom {
  athletes_data : option (list Athlete);
  coaches_data : option (list Coach);
  results_data : option (list Result);
  top_coaches : option (list RankingEntry)
}.

(** [pd.DataFrame(None)] is the same frame without columns as
    [pd.DataFrame([])]. *)
Definition records_of {R} (pulled : option (list R)) : list R :=
  match pulled with
  | Some data => data
  | None => []
  end.

(** [transform_data]: pulls the three inputs, pushes the
    ranking under [top_coaches] and reports the number of records. *)
Definition transform_data `{ArgSort} (context : XCom) : Exn (XCom * nat) :=
  top <- compute_top_k (records_of (results_data context))
                       (records_of (athletes_data context))
                       (records_of (coaches_data context)) ;;
  Ok (mkXCom (athletes_data context) (coaches_data context)
             (results_data context) (Some top),
      length top).

(** ** The SQLite store *)

(** A row of [top_coaches]; [analysis_date] in seconds. *)
Record Row := mkRow {
  row_id : Z;
  row_coach_name : string;
  row_first_places : Z;
  analysis_date : Z
}.

(** The table [top_coaches] with the counter AUTOINCREMENT keeps in
    [sqlite_sequence]. *)
Record Table := mkTable { rows : list Row; sqlite_sequence : Z }.

(** The database file: the table, once created. *)
Definition Database := option Table.

(** A [sqlite3] connection: the committed file, which is what any other
    connection reads, and the state inside the open transaction, if any. *)
Record Connection := mkConn {
  committed : Database;
  pending : option Database
}.

Definition connect (db : Database) : Connection := mkConn db None.

Inductive Statement :=
| CreateTableIfNotExists
| DeleteAll
| InsertRow (e : RankingEntry) (now : Z)
| Commit
| Close.

Definition current (c : Connection) : Database :=
  match pending c with
  | Some d => d
  | None => committed c
  end.

(** The [sqlite3] module opens a transaction before INSERT, UPDATE,
    DELETE and REPLACE when none is open. *)
Definition begin_implicit (c : Connection) : Connection :=
  match pending c with
  | Some _ => c
  | None => mkConn (committed c) (Some (committed c))
  end.

(** A write goes to the open transaction, or straight to the file in
    autocommit mode. *)
Definition write (c : Connection) (d : Database) : Connection :=
  match pending c with
  | Some _ => mkConn (committed c) (Some d)
  | None => mkConn d None
  end.

(** A value SQLite stores as INTEGER: a signed 64-bit integer. *)
Definition fits_int64 (z : Z) : bool := (- 2 ^ 63 <=? z) && (z <? 2 ^ 63).

Definition max_rowid (rs : list Row) : Z :=
  fold_right (fun r m => Z.max (row_id r) m) 0 rs.

Definition no_such_table : Exception :=
  OperationalError "no such table: top_coaches".

Definition database_full : Exception :=
  OperationalError "database or disk is full".

Definition int_too_large : Exception :=
  OverflowError "Python int too large to convert to SQLite INTEGER".

(** AUTOINCREMENT: one more than the largest rowid ever used; once that
    is 2^63 - 1 the insert is refused. *)
Definition next_rowid (t : Table) : Exn Z :=
  let largest := Z.max (sqlite_sequence t) (max_rowid (rows t)) in
  if largest <? 2 ^ 63 - 1 then Ok (largest + 1) else Raise database_full.

Definition execute (s : Statement) (c : Connection) : Exn Connection :=
  match s with
  | CreateTableIfNotExists =>
      match current c with
      | Some _ => Ok c
      | None => Ok (write c (Some (mkTable [] 0)))
      end
  | DeleteAll =>
      let c := begin_implicit c in
      match current c with
      | Some t => Ok (write c (Some (mkTable [] (sqlite_sequence t))))
      | None => Raise no_such_table
      end
  | InsertRow e now =>
      let c := begin_implicit c in
      match current c with
      | Some t =>
          if fits_int64 (first_places e) then
            i <- next_rowid t ;;
            let r := mkRow i (coach_name e) (first_places e) now in
            Ok (write c (Some (mkTable (rows t ++ [r]) i)))
          else Raise int_too_large
      | None => Raise no_such_table
      end
  | Commit => Ok (mkConn (current c) None)
  | Close => Ok (mkConn (committed c) None)
  end.

(** The connection after a sequence of statements. *)
Fixpoint run (ss : list Statement) (c : Connection) : Exn Connection :=
  match ss with
  | [] => Ok c
  | s :: ss' => c' <- execute s c ;; run ss' c'
  end.

(** What another connection can read after each statement, up to the
    statement that raises, if one does. *)
Fixpoint observations (ss : list Statement) (c : Connection)
    : list Database :=
  match ss with
  | [] => []
  | s :: ss' =>
      match execute s c with
      | Ok c' => committed c' :: observations ss' c'
      | Raise _ => []
      end
  end.

(** [df.to_sql('top_coaches', conn, if_exists='append', index=False)]:
    nothing is sent for a frame without rows; otherwise the rows are
    inserted and pandas commits.  [clock i] is CURRENT_TIMESTAMP at the
    i-th insert. *)
Fixpoint inserts (clock : nat -> Z) (i : nat) (es : list RankingEntry)
    : list Statement :=
  match es with
  | [] => []
  | e :: es' => InsertRow e (clock i) :: inserts clock (S i) es'
  end.

Definition frame_rows {R} (df : DataFrame R) : list R :=
  match df with
  | NoColumns => []
  | Frame rs => rs
  end.

Definition to_sql (df : DataFrame RankingEntry) (clock : nat -> Z)
    : list Statement :=
  match frame_rows df with
  | [] => []
  | es => inserts clock 0 es ++ [Commit]
  end.

(** The statements [load_to_database] sends, lines 113-125. *)
Definition load_statements (data : list RankingEntry) (clock : nat -> Z)
    : list Statement :=
  let df := DataFrame_of_records data in
  [CreateTableIfNotExists; DeleteAll] ++ to_sql df clock ++ [Commit; Close].

(** [load_to_database] on the database file [db]. *)
Definition load_to_database (context : XCom) (clock : nat -> Z)
    (db : Database) : Exn Database :=
  c <- run (load_statements (records_of (top_coaches context)) clock)
           (connect db) ;;
  Ok (committed c).

(** The spec's [persist(entries, store)]. *)
Definition persist (entries : list RankingEntry) (clock : nat -> Z)
    (db : Database) : Exn Database :=
  load_to_database (mkXCom None None None (Some entries)) clock db.

(** The database file once the statements have ended: a statement that
    raises ends them, and the transaction it leaves open is rolled
    back, by pandas or with the connection. *)
Definition file_after (ss : list Statement) (c : Connection) : Database :=
  last (observations ss c) (committed c).

(** The file once CREATE TABLE IF NOT EXISTS has run. *)
Definition created (db : Database) : Database :=
  match db with
  | Some t => Some t
  | None => Some (mkTable [] 0)
  end.

(** The (coach_name, first_places) pairs stored in the table. *)
Definition entry_of_row (r : Row) : RankingEntry :=
  mkEntry (row_coach_name r) (row_first_places r).

Definition stored_entries (db : Database) : list RankingEntry :=
  match db with
  | Some t => map entry_of_row (rows t)
  | None => []
  end.

(** ** The counts the specification speaks of *)

(** A qualifying result: a first place. *)
Definition qualifies (r : Result) : bool := r_place r =? 1.

(** The qualifying results credited to a coach record: one for every
    pair of a first place and an athlete record of that athlete whose
    [coach_id] is the coach's. *)
Definition credited (R : list Result) (A : list Athlete) (c : Coach) : nat :=
  list_sum
    (map (fun r =>
            length (filter (fun a => (a_athlete_id a =? r_athlete_id r)
                                     && (c_coach_id c =? a_coach_id a)) A))
         (filter qualifies R)).

(** The sum of the credits of the coach records bearing a name. *)
Definition name_count (R : list Result) (A : list Athlete) (C : list Coach)
    (n : string) : nat :=
  list_sum (map (credited R A)
                (filter (fun c => String.eqb n (c_coach_name c)) C)).

(** The coach records with at least one qualifying result. *)
Definition qualifying_coaches (R : list Result) (A : list Athlete)
    (C : list Coach) : list Coach :=
  filter (fun c => (0 <? credited R A c)%nat) C.

(** The number of distinct coaches, by identifier, among them. *)
Definition distinct_qualifying_coaches (R : list Result) (A : list Athlete)
    (C : list Coach) : nat :=
  length (nodup Z.eq_dec (map c_coach_id (qualifying_coaches R A C))).

(** The number of distinct coach names among them. *)
Definition distinct_qualifying_names (R : list Result) (A : list Athlete)
    (C : list Coach) : nat :=
  length (nodup string_dec (map c_coach_name (qualifying_coaches R A C))).

(** A result row that joins through to no coach: every athlete record of
    its athlete has a [coach_id] that no coach record carries (in
    particular when there is no such athlete record). *)
Definition unjoinable (r : Result) (A : list Athlete) (C : list Coach)
    : bool :=
  forallb (fun a => negb (a_athlete_id a =? r_athlete_id r)
                    || forallb (fun c => negb (c_coach_id c =? a_coach_id a)) C)
          A.

(** Lines 86-89 on frames that have their columns. *)
Definition merged_rows (R : list Result) (A : list Athlete) (C : list Coach)
    : list MergedRow :=
  inner_join (fun ra => a_coach_id (snd ra)) c_coach_id pair_coach
    (inner_join r_athlete_id a_athlete_id pair_athlete (filter qualifies R) A)
    C.

(** The indicator of a test, for counting. *)
Definition ind (b : bool) : nat := if b then 1%nat else 0%nat.

(** Non-increasing counts: every entry's count is at least the next
    entry's. *)
Definition sorted_desc (out : list RankingEntry) : Prop :=
  Sorted (fun e1 e2 => first_places e1 >= first_places e2) out.

(** The first places a ranking adds up to. *)
Definition sum_first_places (out : list RankingEntry) : Z :=
  fold_right Z.add 0 (map first_places out).

(** ** Sample inputs *)

(** The example of the specification. *)
Definition spec_results : list Result :=
  [mkResult 1 1; mkResult 2 1; mkResult 3 2].
Definition spec_athletes : list Athlete :=
  [mkAthlete 1 10; mkAthlete 2 10; mkAthlete 3 11].
Definition spec_coaches : list Coach := [mkCoach 10 "A"; mkCoach 11 "B"].

(** Two coaches, identifiers 10 and 11, both named A, each with a first
    place. *)
Definition namesake_results : list Result := [mkResult 1 1; mkResult 3 1].
Definition namesake_coaches : list Coach := [mkCoach 10 "A"; mkCoach 11 "A"].

(** Athlete 1 recorded twice. *)
Definition doubled_athletes : list Athlete :=
  [mkAthlete 1 10; mkAthlete 1 10; mkAthlete 3 11].

(** Four coaches with first places: D has two, A, B and C one each. *)
Definition tied_results : list Result :=
  [mkResult 1 1; mkResult 3 1; mkResult 4 1; mkResult 5 1; mkResult 5 1].
Definition tied_athletes : list Athlete :=
  [mkAthlete 1 10; mkAthlete 3 11; mkAthlete 4 12; mkAthlete 5 13].
Definition tied_coaches : list Coach :=
  [mkCoach 10 "A"; mkCoach 11 "B"; mkCoach 12 "C"; mkCoach 13 "D"].

(** A first place of athlete 7, whom no athlete record knows, and one of
    athlete 8, whose coach 99 no coach record knows. *)
Definition orphan_result : Result := mkResult 7 1.
Definition stray_result : Result := mkResult 8 1.
Definition stray_athletes : list Athlete :=
  [mkAthlete 1 10; mkAthlete 2 10; mkAthlete 3 11; mkAthlete 8 99].

(** The AUTOINCREMENT counter of the file; a file without the table has
    none yet. *)
Definition counter (db : Database) : Z :=
  match db with
  | Some t => sqlite_sequence t
  | None => 0
  end.

(** A load finds room in the store: every count is a 64-bit integer
    and the row ids, which go on from the counter, stay below 2^63. *)
Definition storable (db : Database) (entries : list RankingEntry) : bool :=
  forallb (fun e => fits_int64 (first_places e)) entries
  && (Z.max (counter db) 0 + Z.of_nat (length entries) <? 2 ^ 63).

(** The rows the inserts of one load leave, the first with id [next]. *)
Fixpoint new_rows (clock : nat -> Z) (i : nat) (next : Z)
    (es : list RankingEntry) : list Row :=
  match es with
  | [] => []
  | e :: es' =>
      mkRow next (coach_name e) (first_places e) (clock i)
      :: new_rows clock (S i) (next + 1) es'
  end.

(** ** The report step *)

(** What a task attempt can die of, beyond the exceptions above. *)
Inductive Failure :=
| PythonError (e : Exception)
| DatabaseError (msg : string)
| Unreadable (path : string).

Inductive Attempt (A : Type) :=
| Done (a : A)
| Failed (f : Failure).
Arguments Failed {A} f.

(** ORDER BY first_places DESC: SQLite returns the rows with their
    counts non-increasing and promises nothing on the order of equal
    counts, so any such ordering is allowed for. *)
Class OrderBy := {
  order_by_desc : list Row -> list Row;
  order_by_perm : forall rs, Permutation (order_by_desc rs) rs;
  order_by_sorted : forall rs,
    StronglySorted (fun x y => y <= x)
                   (map row_first_places (order_by_desc rs))
}.

(** A stable ordering, for running the model. *)
Definition geb_first_places (r1 r2 : Row) : bool :=
  row_first_places r2 <=? row_first_places r1.

Definition report_query : string :=
  "SELECT coach_name, first_places FROM top_coaches ORDER BY first_places DESC".

(** [pd.read_sql_query(report_query, conn)], line 136: pandas wraps
    SQLite's complaint about a missing table. *)
Definition read_ranking `{OrderBy} (db : Database)
    : Attempt (list RankingEntry) :=
  match db with
  | Some t => Done (map entry_of_row (order_by_desc (rows t)))
  | None =>
      Failed (DatabaseError ("Execution failed on sql '" ++ report_query
                             ++ "': no such table: top_coaches")%string)
  end.

Definition nl : string := String "010"%char EmptyString.

(** [str(n)] of an integer. *)
Definition show_Z (z : Z) : string := NilZero.string_of_int (Z.to_int z).

(** Lines 139-143; [now] is the formatted [datetime.now()]. *)
Definition report_header (now : string) : string :=
  ("ОТЧЕТ: Топ-3 тренеров по количеству первых мест" ++ nl
   ++ "===============================================================" ++ nl
   ++ "Дата анализа: " ++ now ++ nl ++ nl)%string.

(** Line 145, for the row of index [i]. *)
Definition report_line (i : nat) (row : RankingEntry) : string :=
  (show_Z (Z.of_nat i + 1) ++ ". " ++ coach_name row ++ " — "
   ++ show_Z (first_places row) ++ " первых мест" ++ nl)%string.

(** Lines 144-145: the loop over [df.iterrows()]. *)
Definition report_text (now : string) (df : list RankingEntry) : string :=
  fold_left (fun report ir =>
               (report ++ report_line (fst ir) (snd ir))%string)
            (combine (seq 0 (length df)) df)
            (report_header now).

(** The number of line ends of a text. *)
Fixpoint count_nl (s : string) : nat :=
  match s with
  | EmptyString => 0%nat
  | String c s' =>
      ((if Ascii.eqb c "010"%char then 1 else 0) + count_nl s')%nat
  end.

(** ** The DAG *)

(** The three input files as the readers parse them; [None] when a file
    is missing or cannot be parsed. *)
Record Files := mkFiles {
  athletes_csv : option (list Athlete);
  coaches_xlsx : option (list Coach);
  results_json : option (list Result)
}.

(** A mail handed to [send_email]: the results mail with the contents of
    its two attachments, or the alert Airflow sends for a failed task. *)
Inductive Mail :=
| ResultsMail (to : list string) (subject html_content : string)
              (attached_report : string) (attached_csv : list RankingEntry)
| FailureAlert (to : list string) (task_id : string).

(** What the tasks of a run read and write: the run's XCom, the
    database file, the two report files (the CSV as the frame written to
    it) and the mails sent. *)
Record World := mkWorld {
  w_xcom : XCom;
  w_report : option string;
  w_db : Database;
  w_report_file : option string;
  w_csv_file : option (list RankingEntry);
  w_outbox : list Mail
}.

(** What a run is given: the files, the clock of the inserts, the
    formatted time of the report and the run's date [ds]. *)
Record Run := mkRun {
  files : Files;
  clock : nat -> Z;
  report_time : string;
  ds : string
}.

Definition set_xcom (w : World) (x : XCom) : World :=
  mkWorld x (w_report w) (w_db w) (w_report_file w) (w_csv_file w)
          (w_outbox w).

Definition athletes_path : string := "/opt/airflow/dags/data/athletes.csv".
Definition coaches_path : string := "/opt/airflow/dags/data/coaches.xlsx".
Definition results_path : string := "/opt/airflow/dags/data/results.json".
Definition report_path : string := "/opt/airflow/top_coaches_report.txt".
Definition csv_path : string := "/opt/airflow/top_coaches_data.csv".

(** Lines 48-70: each extract task pushes the records of its file. *)
Definition extract_athletes_data (run : Run) (w : World) : Attempt World :=
  match athletes_csv (files run) with
  | Some records =>
      let x := w_xcom w in
      Done (set_xcom w (mkXCom (Some records) (coaches_data x)
                               (results_data x) (top_coaches x)))
  | None => Failed (Unreadable athletes_path)
  end.

Definition extract_coaches_data (run : Run) (w : World) : Attempt World :=
  match coaches_xlsx (files run) with
  | Some records =>
      let x := w_xcom w in
      Done (set_xcom w (mkXCom (athletes_data x) (Some records)
                               (results_data x) (top_coaches x)))
  | None => Failed (Unreadable coaches_path)
  end.

Definition extract_results_data (run : Run) (w : World) : Attempt World :=
  match results_json (files run) with
  | Some records =>
      let x := w_xcom w in
      Done (set_xcom w (mkXCom (athletes_data x) (coaches_data x)
                               (Some records) (top_coaches x)))
  | None => Failed (Unreadable results_path)
  end.

Definition of_Exn {A} (r : Exn A) : Attempt A :=
  match r with
  | Ok a => Done a
  | Raise e => Failed (PythonError e)
  end.

(** The transform and load steps on the world of the run. *)
Definition transform_step `{ArgSort} (run : Run) (w : World)
    : Attempt World :=
  match of_Exn (transform_data (w_xcom w)) with
  | Done (x, _) => Done (set_xcom w x)
  | Failed f => Failed f
  end.

Definition load_step (run : Run) (w : World) : Attempt World :=
  match of_Exn (load_to_database (w_xcom w) (clock run) (w_db w)) with
  | Done db' =>
      Done (mkWorld (w_xcom w) (w_report w) db' (w_report_file w)
                    (w_csv_file w) (w_outbox w))
  | Failed f => Failed f
  end.

(** Lines 133-158: the report is built from the stored table, written
    to the text file, the frame to the CSV file, and the text pushed. *)
Definition generate_report `{OrderBy} (run : Run) (w : World)
    : Attempt World :=
  match read_ranking (w_db w) with
  | Done df =>
      let report := report_text (report_time run) df in
      Done (mkWorld (w_xcom w) (Some report) (w_db w) (Some report)
                    (Some df) (w_outbox w))
  | Failed f => Failed f
  end.

Definition results_subject : string :=
  "Топ-3 тренеров по первым местам — результаты анализа".

(** Lines 166-178; a report never pushed is pulled as [None] and
    formatted as such. *)
Definition html_content (ds report : string) : string :=
  ("
    <h2>Анализ спортивных результатов завершён успешно</h2>
    <p><strong>DAG:</strong> coaches_top3_analysis</p>
    <p><strong>Дата выполнения:</strong> " ++ ds ++ "</p>
    <p><strong>Топ-3 тренеров по количеству первых мест:</strong></p>
    <pre>" ++ report ++ "</pre>
    <hr>
    <p>Файлы отчёта прикреплены:</p>
    <ul>
        <li>top_coaches_report.txt</li>
        <li>top_coaches_data.csv</li>
    </ul>
    ")%string.

(** Lines 163-189: [send_email] reads the two attachments, which must
    exist. *)
Definition send_email_with_results (run : Run) (w : World) : Attempt World :=
  let report := match w_report w with Some r => r | None => "None" end in
  match w_report_file w, w_csv_file w with
  | Some txt, Some csv =>
      let mail := ResultsMail ["test@example.com"] results_subject
                              (html_content (ds run) report) txt csv in
      Done (mkWorld (w_xcom w) (w_report w) (w_db w) (w_report_file w)
                    (w_csv_file w) (w_outbox w ++ [mail]))
  | None, _ => Failed (Unreadable report_path)
  | Some _, None => Failed (Unreadable csv_path)
  end.

(** Lines 194-234: the seven operators. *)
Inductive Task :=
| extract_athletes_task
| extract_coaches_task
| extract_results_task
| transform_task
| load_task
| report_task
| email_task.

Definition task_id (t : Task) : string :=
  match t with
  | extract_athletes_task => "extract_athletes"
  | extract_coaches_task => "extract_coaches"
  | extract_results_task => "extract_results"
  | transform_task => "transform_data"
  | load_task => "load_to_database"
  | report_task => "generate_report"
  | email_task => "send_email_with_results"
  end.

Definition python_callable `{ArgSort} `{OrderBy} (t : Task)
    : Run -> World -> Attempt World :=
  match t with
  | extract_athletes_task => extract_athletes_data
  | extract_coaches_task => extract_coaches_data
  | extract_results_task => extract_results_data
  | transform_task => transform_step
  | load_task => load_step
  | report_task => generate_report
  | email_task => send_email_with_results
  end.

Definition Task_eqb (a b : Task) : bool :=
  String.eqb (task_id a) (task_id b).

(** Lines 236-237: [a >> b] makes [a] upstream of [b]. *)
Definition dependencies : list (Task * Task) :=
  [(extract_athletes_task, transform_task);
   (extract_coaches_task, transform_task);
   (extract_results_task, transform_task);
   (transform_task, load_task);
   (load_task, report_task);
   (report_task, email_task)].

Definition upstream (t : Task) : list Task :=
  map fst (filter (fun e => Task_eqb (snd e) t) dependencies).

Inductive TaskState :=
| success
| failed (f : Failure)
| upstream_failed.

Definition state_of (states : list (Task * TaskState)) (t : Task)
    : option TaskState :=
  option_map snd (find (fun p => Task_eqb (fst p) t) states).

Definition is_success (s : option TaskState) : bool :=
  match s with
  | Some success => true
  | _ => false
  end.

(** [default_args]: one retry, a mail to the owner when a task has
    finally failed, none on a retry. *)
Definition retries : nat := 1.
Definition alert_to : list string := ["test@example.com"].

Definition send_alert (t : Task) (w : World) : World :=
  mkWorld (w_xcom w) (w_report w) (w_db w) (w_report_file w) (w_csv_file w)
          (w_outbox w ++ [FailureAlert alert_to (task_id t)]).

(** What a failed attempt leaves behind: the load has created the table
    and rolled back what it did to the rows; the other tasks fail before
    their first write. *)
Definition after_failure (t : Task) (run : Run) (w : World) : World :=
  match t with
  | load_task =>
      mkWorld (w_xcom w) (w_report w)
              (file_after
                 (load_statements (records_of (top_coaches (w_xcom w)))
                                  (clock run))
                 (connect (w_db w)))
              (w_report_file w) (w_csv_file w) (w_outbox w)
  | _ => w
  end.

(** A task with [n] retries left: the state it ends in and the world it
    leaves; the alert goes out when no retry is left. *)
Fixpoint attempt `{ArgSort} `{OrderBy} (n : nat) (t : Task) (run : Run)
    (w : World) : TaskState * World :=
  match python_callable t run w with
  | Done w' => (success, w')
  | Failed f =>
      let w' := after_failure t run w in
      match n with
      | O => (failed f, send_alert t w')
      | S n' => attempt n' t run w'
      end
  end.

(** A task under the default trigger rule: it runs once all its
    upstream tasks have succeeded and is marked upstream_failed
    otherwise. *)
Definition run_task `{ArgSort} `{OrderBy} (run : Run)
    (s : list (Task * TaskState) * World) (t : Task)
    : list (Task * TaskState) * World :=
  let (states, w) := s in
  if forallb (fun u => is_success (state_of states u)) (upstream t) then
    let (state, w') := attempt retries t run w in
    (states ++ [(t, state)], w')
  else (states ++ [(t, upstream_failed)], w).

(** A run starts with an XCom of its own. *)
Definition new_run (w : World) : World :=
  mkWorld (mkXCom None None None None) None (w_db w) (w_report_file w)
          (w_csv_file w) (w_outbox w).

Definition dag_order : list Task :=
  [extract_athletes_task; extract_coaches_task; extract_results_task;
   transform_task; load_task; report_task; email_task].

(** One run of the DAG, the tasks taken in the order [order]. *)
Definition run_dag `{ArgSort} `{OrderBy} (run : Run) (order : list Task)
    (w : World) : list (Task * TaskState) * World :=
  fold_left (run_task run) order ([], new_run w).

(** The results mails among the mails sent. *)
Definition is_results_mail (m : Mail) : bool :=
  match m with
  | ResultsMail _ _ _ _ _ => true
  | FailureAlert _ _ => false
  end.

(** Two worlds that differ at most in the order of the mails sent. *)
Definition same_but_mail_order (w1 w2 : World) : Prop :=
  w_xcom w1 = w_xcom w2
  /\ w_report w1 = w_report w2
  /\ w_db w1 = w_db w2
  /\ w_report_file w1 = w_report_file w2
  /\ w_csv_file w1 = w_csv_file w2
  /\ Permutation (w_outbox w1) (w_outbox w2).

(** The tasks after the extracts, in their only possible order. *)
Definition chain : list Task :=
  [transform_task; load_task; report_task; email_task].

(** ** check_results.py *)

(** [subprocess.run(..., capture_output=True, text=True, check=True)]:
    the standard output, or one of the two exceptions the script
    catches. *)
Inductive Completed :=
| Stdout (out : string)
| CalledProcessError
| FileNotFoundError.

(** [str.isspace] on the ASCII range, which container names stay in. *)
Definition isspace (c : ascii) : bool :=
  let n := nat_of_ascii c in
  (((9 <=? n) && (n <=? 13)) || ((28 <=? n) && (n <=? 32)))%nat.

Fixpoint lstrip (s : string) : string :=
  match s with
  | EmptyString => EmptyString
  | String c s' => if isspace c then lstrip s' else s
  end.

Fixpoint rstrip (s : string) : string :=
  match s with
  | EmptyString => EmptyString
  | String c s' =>
      match rstrip s' with
      | EmptyString => if isspace c then EmptyString else String c EmptyString
      | r => String c r
      end
  end.

(** [s.strip()] *)
Definition strip (s : string) : string := rstrip (lstrip s).

(** [s.split('\n')] *)
Fixpoint split_lines (s : string) : list string :=
  match s with
  | EmptyString => [EmptyString]
  | String c s' =>
      if Ascii.eqb c "010"%char then EmptyString :: split_lines s'
      else match split_lines s' with
           | line :: rest => String c line :: rest
           | [] => [String c EmptyString]
           end
  end.

(** [sub in s] *)
Definition contains (sub s : string) : bool :=
  match index 0 sub s with
  | Some _ => true
  | None => false
  end.

(** Lines 17-28. *)
Definition check_docker_container (ps : Completed) : option string :=
  match ps with
  | Stdout out =>
      let containers := split_lines (strip out) in
      let scheduler_containers := filter (contains "scheduler") containers in
      match scheduler_containers with
      | c :: _ => Some c
      | [] => None
      end
  | CalledProcessError => None
  | FileNotFoundError => None
  end.

(** What [check_database] prints, one constructor for each [print] with
    the values it formats; the table itself is printed by
    [df.to_string]. *)
Inductive Printed :=
| DbNotFoundLocally
| SchedulerFound (container_name : string)
| CopyingDb (container_name : string)
| DbCopied
| CopyError
| CopyFailed
| CopyHint (container_name : string)
| SchedulerNotFound
| TablesFound (names : list string)
| TableNotFound
| ResultsTable (df : list Row)
| TotalFirstPlaces (total : Z)
| BestCoach (name : string) (first_places : Z)
| CheckError (msg : string).

(** Where the script runs: the local copy of the database, if the file
    exists, what [docker ps] answers, and the file [docker cp] brings
    from a container, if it succeeds. *)
Record Host := mkHost {
  local_db : option Database;
  docker_ps : Completed;
  container_db : string -> option Database
}.

(** Lines 31-45. *)
Definition copy_db_from_container (h : Host) (container_name : string)
    : list Printed * option Database :=
  match container_db h container_name with
  | Some db => ([CopyingDb container_name; DbCopied], Some db)
  | None => ([CopyingDb container_name; CopyError], None)
  end.

(** Lines 51-65: the database to inspect, if one is at hand. *)
Definition find_database (h : Host) : list Printed * option Database :=
  match local_db h with
  | Some db => ([], Some db)
  | None =>
      match check_docker_container (docker_ps h) with
      | Some container_name =>
          match copy_db_from_container h container_name with
          | (said, Some db) =>
              (DbNotFoundLocally :: SchedulerFound container_name :: said,
               Some db)
          | (said, None) =>
              (DbNotFoundLocally :: SchedulerFound container_name :: said
               ++ [CopyFailed; CopyHint container_name],
               None)
          end
      | None => ([DbNotFoundLocally; SchedulerNotFound], None)
      end
  end.

(** An int64 sum wraps around. *)
Definition wrap64 (z : Z) : Z := (z + 2 ^ 63) mod 2 ^ 64 - 2 ^ 63.

(** [sqlite_master]: the table and the one AUTOINCREMENT brings. *)
Definition table_names (db : Database) : list string :=
  match db with
  | Some _ => ["top_coaches"; "sqlite_sequence"]
  | None => []
  end.

(** Lines 67-110: the inspection of the database; an exception on the
    way is caught and printed. *)
Definition inspect_database `{OrderBy} (db : Database) : list Printed :=
  match db with
  | None => [TablesFound (table_names db); TableNotFound]
  | Some t =>
      let df := order_by_desc (rows t) in
      let total := wrap64 (fold_right Z.add 0 (map row_first_places df)) in
      [TablesFound (table_names db); ResultsTable df; TotalFirstPlaces total]
      ++ match df with
         | best_coach :: _ =>
             [BestCoach (row_coach_name best_coach)
                        (row_first_places best_coach)]
         | [] => [CheckError "single positional indexer is out-of-bounds"]
         end
  end.

(** Lines 48-110. *)
Definition check_database `{OrderBy} (h : Host) : list Printed :=
  match find_database h with
  | (said, Some db) => said ++ inspect_database db
  | (said, None) => said
  end.

(** ** Sample runs *)

(** A stored ranking of an earlier run, and a run on the tied inputs. *)
Definition sample_world : World :=
  mkWorld (mkXCom None None None None) None
          (Some (mkTable [mkRow 1 "Z" 9 5] 1)) None None [].

Definition sample_run : Run :=
  mkRun (mkFiles (Some tied_athletes) (Some tied_coaches) (Some tied_results))
        (fun i => 100 + Z.of_nat i) "2025-01-01 10:00:00" "2025-01-01".

(** A run whose coaches file is missing and whose results are empty. *)
Definition failing_run : Run :=
  mkRun (mkFiles (Some tied_athletes) None (Some []))
        (fun i => 100 + Z.of_nat i) "2025-01-01 10:00:00" "2025-01-01".

(** The table the sample run leaves, and a host that finds it in the
    scheduler container only. *)
Definition sample_table : Table :=
  mkTable [mkRow 2 "D" 2 100; mkRow 3 "A" 1 101; mkRow 4 "B" 1 102] 4.

Definition sample_host : Host :=
  mkHost None
         (Stdout ("airflow-webserver-1" ++ nl ++ "airflow-scheduler-1" ++ nl)%string)
         (fun c => if String.eqb c "airflow-scheduler-1"
                   then Some (Some sample_table) else None).

(** ** Lemmas on the sorts *)

Section InsertionFacts.
Context {A : Type} (leb : A -> A -> bool).

Lemma insert_perm (x : A) (l : list A) :
  Permutation (insert leb x l) (x :: l).
Proof.
  induction l as [|y t IH]; simpl.
  - apply Permutation_refl.
  - destruct (leb x y).
    + apply Permutation_refl.
    + eapply Permutation_trans; [apply perm_skip, IH | apply perm_swap].
Qed.

Lemma isort_perm (l : list A) : Permutation (isort leb l) l.
Proof.
  induction l as [|x t IH]; simpl.
  - constructor.
  - eapply Permutation_trans; [apply insert_perm | now apply perm_skip].
Qed.

Hypothesis leb_total : forall x y, leb x y = true \/ leb y x = true.
Hypothesis leb_trans :
  forall x y z, leb x y = true -> leb y z = true -> leb x z = true.

Let le (x y : A) : Prop := leb x y = true.

Lemma insert_sorted (x : A) (l : list A) :
  StronglySorted le l -> StronglySorted le (insert leb x l).
Proof.
  induction 1 as [|y t Ht IH Hy]; simpl.
  - repeat constructor.
  - destruct (leb x y) eqn:E.
    + constructor; [now constructor|].
      constructor; [exact E|].
      rewrite Forall_forall in *. intros z Hz.
      eapply leb_trans; [exact E | now apply Hy].
    + constructor; [exact IH|].
      assert (Hyx : leb y x = true)
        by (destruct (leb_total x y) as [H|H]; congruence).
      rewrite Forall_forall in *. intros z Hz.
      apply (Permutation_in _ (insert_perm x t)) in Hz.
      destruct Hz as [<-|Hz]; [exact Hyx | now apply Hy].
Qed.

Lemma isort_sorted (l : list A) : StronglySorted le (isort leb l).
Proof.
  induction l as [|x t IH]; simpl.
  - constructor.
  - now apply insert_sorted.
Qed.
End InsertionFacts.

Lemma map_nth_seq {R} (d : R) (l : list R) :
  map (fun i => nth i l d) (seq 0 (length l)) = l.
Proof.
  induction l as [|x t IH]; simpl; [reflexivity|].
  f_equal. rewrite <- seq_shift, map_map. exact IH.
Qed.

Lemma take_perm {R} (d : R) (l : list R) (idx : list nat) :
  Permutation idx (seq 0 (length l)) -> Permutation (take d l idx) l.
Proof.
  intros H. unfold take.
  eapply Permutation_trans; [apply Permutation_map, H|].
  rewrite map_nth_seq. apply Permutation_refl.
Qed.

Lemma StronglySorted_app_inv {R} (le : R -> R -> Prop) (l1 l2 : list R) :
  StronglySorted le l1 -> StronglySorted le l2 ->
  (forall x y, In x l1 -> In y l2 -> le x y) ->
  StronglySorted le (l1 ++ l2).
Proof.
  induction 1 as [|x t Ht IH Hx]; simpl; intros H2 Hc; [exact H2|].
  constructor.
  - apply IH; [exact H2 | intros; apply Hc; simpl; auto].
  - apply Forall_app. split; [exact Hx|].
    apply Forall_forall. intros y Hy. apply Hc; simpl; auto.
Qed.

Lemma StronglySorted_rev {R} (le : R -> R -> Prop) (l : list R) :
  StronglySorted le l -> StronglySorted (fun x y => le y x) (rev l).
Proof.
  induction 1 as [|x t Ht IH Hx]; simpl; [constructor|].
  apply StronglySorted_app_inv; [exact IH | repeat constructor |].
  intros y z Hy [<-|[]]. apply in_rev in Hy.
  rewrite Forall_forall in Hx. now apply Hx.
Qed.

Lemma StronglySorted_firstn {R} (le : R -> R -> Prop) (n : nat) (l : list R) :
  StronglySorted le l -> StronglySorted le (firstn n l).
Proof.
  intros H. revert n.
  induction H as [|x t Ht IH Hx]; intros [|n]; simpl; try constructor.
  - apply IH.
  - rewrite Forall_forall in *. intros y Hy. apply Hx.
    rewrite <- (firstn_skipn n t). apply in_or_app. now left.
Qed.

Lemma sorted_desc_of_keys (out : list RankingEntry) :
  StronglySorted (fun x y => y <= x) (map first_places out) ->
  sorted_desc out.
Proof.
  intros H. apply StronglySorted_Sorted.
  induction out as [|e t IH]; simpl in *; [constructor|].
  inversion H as [|? ? Ht He]; subst.
  constructor; [now apply IH|].
  rewrite Forall_forall in *. intros e' He'.
  apply Z.le_ge, He, in_map, He'.
Qed.

Section SortValues.
Context `{ArgSort}.

Lemma argsort_bound (ks : list Z) (j : nat) :
  In j (argsort ks) -> (j < length ks)%nat.
Proof.
  intros Hj. apply (Permutation_in _ (argsort_perm ks)) in Hj.
  apply in_seq in Hj. lia.
Qed.

Lemma nargsort_desc_perm (keys : list Z) :
  Permutation (nargsort_desc keys) (seq 0 (length keys)).
Proof.
  unfold nargsort_desc.
  eapply Permutation_trans; [apply Permutation_sym, Permutation_rev|].
  eapply Permutation_trans;
    [apply take_perm | apply Permutation_sym, Permutation_rev].
  rewrite length_rev, length_seq, <- (length_rev keys).
  apply argsort_perm.
Qed.

Lemma sort_values_desc_perm (df : list RankingEntry) :
  Permutation (sort_values_desc df) df.
Proof.
  unfold sort_values_desc. apply take_perm.
  rewrite <- (length_map first_places). apply nargsort_desc_perm.
Qed.

(** The reversed positions read the reversed keys. *)
Lemma nargsort_desc_keys (keys : list Z) :
  take 0 keys (nargsort_desc keys)
  = rev (take 0 (rev keys) (argsort (rev keys))).
Proof.
  unfold nargsort_desc, take.
  rewrite map_rev, map_map. f_equal.
  apply map_ext_in. intros j Hj.
  apply argsort_bound in Hj. rewrite length_rev in Hj.
  rewrite rev_nth by (rewrite length_seq; exact Hj).
  rewrite length_seq, seq_nth by lia. simpl.
  now rewrite rev_nth by exact Hj.
Qed.

Lemma sort_values_desc_keys (df : list RankingEntry) :
  map first_places (sort_values_desc df)
  = take 0 (map first_places df) (nargsort_desc (map first_places df)).
Proof.
  unfold sort_values_desc, take. rewrite map_map.
  apply map_ext. intros i.
  now rewrite <- (map_nth first_places).
Qed.

Lemma sort_values_desc_sorted (df : list RankingEntry) :
  StronglySorted (fun x y => y <= x)
                 (map first_places (sort_values_desc df)).
Proof.
  rewrite sort_values_desc_keys, nargsort_desc_keys.
  apply StronglySorted_rev. apply argsort_sorted.
Qed.

Lemma top_coaches_of_sorted (merged : list MergedRow) :
  sorted_desc (top_coaches_of merged).
Proof.
  apply sorted_desc_of_keys. unfold top_coaches_of, head.
  rewrite <- firstn_map.
  apply StronglySorted_firstn, sort_values_desc_sorted.
Qed.
End SortValues.

(** ** numpy's insertion sort is an argsort *)

Lemma combine_seq_fst (ks : list Z) (s : nat) :
  map fst (combine (seq s (length ks)) ks) = seq s (length ks).
Proof.
  revert s. induction ks as [|k t IH]; intros s; simpl; [reflexivity|].
  now rewrite IH.
Qed.

Lemma combine_seq_snd (ks : list Z) (s i : nat) (k : Z) :
  In (i, k) (combine (seq s (length ks)) ks) ->
  (s <= i)%nat /\ nth (i - s) ks 0 = k.
Proof.
  revert s. induction ks as [|k0 t IH]; intros s; simpl; [tauto|].
  intros [E|Hin].
  - inversion E; subst. now rewrite Nat.sub_diag.
  - apply IH in Hin. destruct Hin as [Hle Hn]. split; [lia|].
    replace (i - s)%nat with (S (i - S s)) by lia. exact Hn.
Qed.

Lemma insertion_argsort_perm (ks : list Z) :
  Permutation (insertion_argsort ks) (seq 0 (length ks)).
Proof.
  unfold insertion_argsort.
  rewrite <- (combine_seq_fst ks 0) at 2.
  apply Permutation_map, isort_perm.
Qed.

Lemma insertion_argsort_sorted (ks : list Z) :
  StronglySorted Z.le (map (fun i => nth i ks 0) (insertion_argsort ks)).
Proof.
  unfold insertion_argsort. rewrite map_map.
  set (ps := isort _ _).
  assert (Hps : StronglySorted (fun p q => leb_snd p q = true) ps).
  { apply isort_sorted; unfold leb_snd; intros.
    - destruct (Z.leb_spec (snd x) (snd y)); [now left|right].
      apply Z.leb_le. lia.
    - rewrite Z.leb_le in *. lia. }
  assert (Hin : forall p, In p ps -> nth (fst p) ks 0 = snd p).
  { intros [i k] Hp. apply (Permutation_in _ (isort_perm _ _)) in Hp.
    apply combine_seq_snd in Hp. simpl. destruct Hp as [_ Hp].
    now rewrite Nat.sub_0_r in Hp. }
  clearbody ps. induction Hps as [|p t Ht IH Hp]; simpl; [constructor|].
  constructor.
  - apply IH. intros q Hq. apply Hin. now right.
  - rewrite Forall_forall in *. intros z Hz.
    apply in_map_iff in Hz. destruct Hz as [q [<- Hq]].
    rewrite !Hin by (simpl; auto).
    apply Z.leb_le. now apply Hp.
Qed.

#[export] Instance insertion_ArgSort : ArgSort := {|
  argsort := insertion_argsort;
  argsort_perm := insertion_argsort_perm;
  argsort_sorted := insertion_argsort_sorted
|}.

(** ** A second argsort, with the other order on ties *)

(** An insertion sort of the (position, value) pairs by an order that
    refines the order of the values is an argsort. *)
Lemma isort_argsort (leb : nat * Z -> nat * Z -> bool) (ks : list Z) :
  (forall p q, leb p q = true \/ leb q p = true) ->
  (forall p q r, leb p q = true -> leb q r = true -> leb p r = true) ->
  (forall p q, leb p q = true -> snd p <= snd q) ->
  Permutation (map fst (isort leb (combine (seq 0 (length ks)) ks)))
              (seq 0 (length ks))
  /\ StronglySorted Z.le
       (map (fun i => nth i ks 0)
            (map fst (isort leb (combine (seq 0 (length ks)) ks)))).
Proof.
  intros Htotal Htrans Hle. split.
  - rewrite <- (combine_seq_fst ks 0) at 2.
    apply Permutation_map, isort_perm.
  - rewrite map_map. set (ps := isort _ _).
    assert (Hps : StronglySorted (fun p q => leb p q = true) ps)
      by now apply isort_sorted.
    assert (Hin : forall p, In p ps -> nth (fst p) ks 0 = snd p).
    { intros [i k] Hp. apply (Permutation_in _ (isort_perm _ _)) in Hp.
      apply combine_seq_snd in Hp. simpl. destruct Hp as [_ Hp].
      now rewrite Nat.sub_0_r in Hp. }
    clearbody ps. induction Hps as [|p t Ht IH Hp]; simpl; [constructor|].
    constructor.
    + apply IH. intros q Hq. apply Hin. now right.
    + rewrite Forall_forall in *. intros z Hz.
      apply in_map_iff in Hz. destruct Hz as [q [<- Hq]].
      rewrite !Hin by (simpl; auto). apply Hle. now apply Hp.
Qed.

Lemma leb_snd_rev_spec (p q : nat * Z) :
  leb_snd_rev p q = true
  <-> snd p < snd q \/ (snd p = snd q /\ (fst q <= fst p)%nat).
Proof.
  unfold leb_snd_rev.
  rewrite orb_true_iff, andb_true_iff, Z.ltb_lt, Z.eqb_eq, Nat.leb_le.
  reflexivity.
Qed.

Lemma reversing_argsort_ok (ks : list Z) :
  Permutation (reversing_argsort ks) (seq 0 (length ks))
  /\ StronglySorted Z.le (map (fun i => nth i ks 0) (reversing_argsort ks)).
Proof.
  apply isort_argsort.
  - intros p q. rewrite !leb_snd_rev_spec. lia.
  - intros p q r. rewrite !leb_snd_rev_spec. lia.
  - intros p q. rewrite leb_snd_rev_spec. lia.
Qed.

#[export] Instance reversing_ArgSort : ArgSort | 10 := {|
  argsort := reversing_argsort;
  argsort_perm := fun ks => proj1 (reversing_argsort_ok ks);
  argsort_sorted := fun ks => proj2 (reversing_argsort_ok ks)
|}.

(** ** Lemmas on the grouping *)

Lemma unique_In (l : list string) (x : string) : In x (unique l) <-> In x l.
Proof.
  induction l as [|y t IH]; simpl; [tauto|].
  rewrite filter_In, IH, negb_true_iff, String.eqb_neq.
  destruct (string_dec y x); intuition congruence.
Qed.

Lemma unique_NoDup (l : list string) : NoDup (unique l).
Proof.
  induction l as [|y t IH]; simpl; constructor.
  - rewrite filter_In, negb_true_iff, String.eqb_neq. tauto.
  - now apply NoDup_filter.
Qed.

Lemma groupby_size_names (names : list string) :
  map coach_name (groupby_size names) = isort String.leb (unique names).
Proof.
  unfold groupby_size. rewrite map_map. simpl. apply map_id.
Qed.

Lemma groupby_size_count (names : list string) (e : RankingEntry) :
  In e (groupby_size names) ->
  first_places e = group_size names (coach_name e).
Proof.
  unfold groupby_size. rewrite in_map_iff. now intros [n [<- _]].
Qed.

Lemma groupby_size_In (names : list string) (e : RankingEntry) :
  In e (groupby_size names) -> In (coach_name e) names.
Proof.
  intros He. apply (in_map coach_name) in He.
  rewrite groupby_size_names in He.
  apply (Permutation_in _ (isort_perm _ _)) in He.
  now apply unique_In.
Qed.

Lemma groupby_size_NoDup (names : list string) :
  NoDup (map coach_name (groupby_size names)).
Proof.
  rewrite groupby_size_names.
  apply (Permutation_NoDup (Permutation_sym (isort_perm _ _))).
  apply unique_NoDup.
Qed.

Lemma groupby_size_length (names : list string) :
  length (groupby_size names) = length (unique names).
Proof.
  unfold groupby_size. rewrite length_map.
  apply Permutation_length, isort_perm.
Qed.

(** ** Lemmas on the joins *)

Lemma length_filter_ind {X} (p : X -> bool) (l : list X) :
  length (filter p l) = list_sum (map (fun x => ind (p x)) l).
Proof.
  induction l as [|x t IH]; simpl; [reflexivity|].
  destruct (p x); simpl; now rewrite IH.
Qed.

Lemma list_sum_map_add {X} (f g : X -> nat) (l : list X) :
  list_sum (map (fun x => f x + g x)%nat l)
  = (list_sum (map f l) + list_sum (map g l))%nat.
Proof.
  induction l as [|x t IH]; simpl; [reflexivity|]. rewrite IH. lia.
Qed.

Lemma length_filter_flat_map {X Y} (p : Y -> bool) (f : X -> list Y)
    (l : list X) :
  length (filter p (flat_map f l))
  = list_sum (map (fun x => length (filter p (f x))) l).
Proof.
  induction l as [|x t IH]; simpl; [reflexivity|].
  now rewrite filter_app, length_app, IH.
Qed.

Lemma length_filter_map_filter {X Y} (q : Y -> bool) (f : X -> Y)
    (m : X -> bool) (l : list X) :
  length (filter q (map f (filter m l)))
  = length (filter (fun x => m x && q (f x)) l).
Proof.
  induction l as [|x t IH]; simpl; [reflexivity|].
  destruct (m x); simpl; [destruct (q (f x)); simpl; now rewrite IH | exact IH].
Qed.

Lemma credited_join (R : list Result) (A : list Athlete) (c : Coach) :
  credited R A c
  = length (filter (fun ra => c_coach_id c =? a_coach_id (snd ra))
              (inner_join r_athlete_id a_athlete_id pair_athlete
                 (filter qualifies R) A)).
Proof.
  unfold credited, inner_join. rewrite length_filter_flat_map.
  f_equal. apply map_ext. intros r.
  now rewrite length_filter_map_filter.
Qed.

Lemma names_count_join {X} (k : X -> Z) (pair : X -> Coach -> MergedRow)
    (Hpair : forall x c, m_coach_name (pair x c) = c_coach_name c)
    (n : string) (C : list Coach) (l : list X) :
  length (filter (String.eqb n)
            (map m_coach_name (inner_join k c_coach_id pair l C)))
  = list_sum (map (fun c => length (filter (fun x => c_coach_id c =? k x) l))
                  (filter (fun c => String.eqb n (c_coach_name c)) C)).
Proof.
  induction l as [|x t IH].
  - simpl. induction (filter _ C) as [|c cs IHc]; simpl; auto.
  - change (inner_join k c_coach_id pair (x :: t) C)
      with (map (pair x) (filter (fun c => c_coach_id c =? k x) C)
            ++ inner_join k c_coach_id pair t C).
    rewrite map_app, filter_app, length_app, IH.
    rewrite (map_ext
               (fun c => length (filter (fun y => c_coach_id c =? k y) (x :: t)))
               (fun c => Nat.add (ind (c_coach_id c =? k x))
                            (length (filter (fun y => c_coach_id c =? k y) t))))
      by (intros c; simpl; destruct (c_coach_id c =? k x); reflexivity).
    rewrite list_sum_map_add. f_equal.
    rewrite map_map.
    rewrite (map_ext _ c_coach_name) by (intros; apply Hpair).
    clear IH. induction C as [|c cs IHc]; simpl; [reflexivity|].
    destruct (c_coach_id c =? k x) eqn:E1;
      destruct (String.eqb n (c_coach_name c)) eqn:E2;
      simpl; rewrite ?E1, ?E2; simpl; rewrite ?E1, ?IHc; reflexivity.
Qed.

Lemma group_size_merged (R : list Result) (A : list Athlete) (C : list Coach)
    (n : string) :
  group_size (map m_coach_name (merged_rows R A C)) n
  = Z.of_nat (name_count R A C n).
Proof.
  unfold group_size, merged_rows, name_count. f_equal.
  rewrite names_count_join by reflexivity.
  f_equal. apply map_ext. intros c. symmetry. apply credited_join.
Qed.

Lemma In_count_pos (n : string) (l : list string) :
  In n l <-> (0 < length (filter (String.eqb n) l))%nat.
Proof.
  split.
  - intros Hin.
    assert (Hf : In n (filter (String.eqb n) l))
      by (apply filter_In; split; [exact Hin | apply String.eqb_refl]).
    destruct (filter _ l); [destruct Hf | simpl; lia].
  - destruct (filter _ l) as [|x t] eqn:E; simpl; [lia|]. intros _.
    assert (Hx : In x (filter (String.eqb n) l)) by (rewrite E; now left).
    apply filter_In in Hx. destruct Hx as [Hx Hn].
    apply String.eqb_eq in Hn. now subst.
Qed.

Lemma list_sum_pos (l : list nat) :
  (0 < list_sum l)%nat <-> exists x, In x l /\ (0 < x)%nat.
Proof.
  induction l as [|x t IH]; simpl.
  - split; [lia | intros [? [[] _]]].
  - split.
    + intros Hs. destruct (Nat.eq_dec x 0) as [->|Hx].
      * apply IH in Hs. destruct Hs as [y [Hy Hp]]. eauto.
      * exists x. split; [now left | lia].
    + intros [y [[->|Hy] Hp]]; [lia|].
      assert (0 < list_sum t)%nat by (apply IH; eauto). lia.
Qed.

(** A name is in the merged frame exactly when a coach record bearing it
    has a qualifying result. *)
Lemma merged_names_qualifying (R : list Result) (A : list Athlete)
    (C : list Coach) (n : string) :
  In n (map m_coach_name (merged_rows R A C))
  <-> In n (map c_coach_name (qualifying_coaches R A C)).
Proof.
  rewrite In_count_pos.
  assert (E : Z.of_nat (length (filter (String.eqb n)
                                  (map m_coach_name (merged_rows R A C))))
              = Z.of_nat (name_count R A C n))
    by apply group_size_merged.
  apply Nat2Z.inj in E. rewrite E. unfold name_count, qualifying_coaches.
  rewrite list_sum_pos. split.
  - intros [x [Hx Hp]]. apply in_map_iff in Hx.
    destruct Hx as [c [<- Hc]]. apply filter_In in Hc.
    destruct Hc as [Hc Hn]. apply String.eqb_eq in Hn. subst n.
    apply in_map, filter_In. split; [exact Hc | now apply Nat.ltb_lt].
  - intros Hn. apply in_map_iff in Hn. destruct Hn as [c [<- Hc]].
    apply filter_In in Hc. destruct Hc as [Hc Hp].
    exists (credited R A c). split; [|now apply Nat.ltb_lt].
    apply in_map, filter_In. split; [exact Hc | apply String.eqb_refl].
Qed.

Lemma unique_length_qualifying (R : list Result) (A : list Athlete)
    (C : list Coach) :
  length (unique (map m_coach_name (merged_rows R A C)))
  = distinct_qualifying_names R A C.
Proof.
  unfold distinct_qualifying_names. apply Permutation_length.
  apply NoDup_Permutation; [apply unique_NoDup | apply NoDup_nodup |].
  intros n. now rewrite unique_In, nodup_In, merged_names_qualifying.
Qed.

(** ** Lemmas on the transform step *)

Lemma NoDup_firstn {X} (n : nat) (l : list X) : NoDup l -> NoDup (firstn n l).
Proof.
  intros H. revert n. induction H as [|x t Hx Ht IH]; intros [|n]; simpl;
    try constructor; [|apply IH].
  intros Hin. apply Hx. rewrite <- (firstn_skipn n t).
  apply in_or_app. now left.
Qed.

Lemma In_firstn {X} (n : nat) (l : list X) (x : X) :
  In x (firstn n l) -> In x l.
Proof.
  intros H. rewrite <- (firstn_skipn n l). apply in_or_app. now left.
Qed.

Section Transform.
Context `{ArgSort}.

Lemma top_coaches_of_In (merged : list MergedRow) (e : RankingEntry) :
  In e (top_coaches_of merged) ->
  In e (groupby_size (map m_coach_name merged)).
Proof.
  intros He. apply In_firstn in He.
  now apply (Permutation_in _ (sort_values_desc_perm _)) in He.
Qed.

Lemma top_coaches_of_NoDup (merged : list MergedRow) :
  NoDup (map coach_name (top_coaches_of merged)).
Proof.
  unfold top_coaches_of, head. rewrite <- firstn_map.
  apply NoDup_firstn.
  eapply Permutation_NoDup;
    [apply Permutation_sym, Permutation_map, sort_values_desc_perm|].
  apply groupby_size_NoDup.
Qed.

Lemma top_coaches_of_length (merged : list MergedRow) :
  length (top_coaches_of merged)
  = Nat.min 3 (length (unique (map m_coach_name merged))).
Proof.
  unfold top_coaches_of, head. rewrite length_firstn.
  now rewrite (Permutation_length (sort_values_desc_perm _)),
    groupby_size_length.
Qed.

(** With three non-empty inputs no column is missing. *)
Lemma compute_top_k_frames (R : list Result) (A : list Athlete)
    (C : list Coach) :
  R <> [] -> A <> [] -> C <> [] ->
  compute_top_k R A C = Ok (top_coaches_of (merged_rows R A C)).
Proof.
  destruct R; [congruence|]. destruct A; [congruence|].
  destruct C; [congruence|]. reflexivity.
Qed.

(** A ranking is returned only for three non-empty inputs. *)
Lemma compute_top_k_Ok (R : list Result) (A : list Athlete)
    (C : list Coach) (out : list RankingEntry) :
  compute_top_k R A C = Ok out ->
  (R <> [] /\ A <> [] /\ C <> [])
  /\ out = top_coaches_of (merged_rows R A C).
Proof.
  destruct R; [discriminate|]. destruct A; [discriminate|].
  destruct C; [discriminate|].
  intros E. rewrite compute_top_k_frames in E by discriminate.
  inversion E. repeat split; discriminate.
Qed.
End Transform.

Lemma flat_map_nil {X Y} (f : X -> list Y) (l : list X) :
  (forall x, In x l -> f x = []) -> flat_map f l = [].
Proof.
  induction l as [|x t IH]; simpl; intros Hf; [reflexivity|].
  rewrite Hf by now left. apply IH. intros; apply Hf; now right.
Qed.

Lemma filter_nil {X} (p : X -> bool) (l : list X) :
  (forall x, In x l -> p x = false) -> filter p l = [].
Proof.
  induction l as [|x t IH]; simpl; intros Hp; [reflexivity|].
  rewrite Hp by now left. apply IH. intros; apply Hp; now right.
Qed.

(** An unjoinable result leaves no row in the merged frame. *)
Lemma unjoinable_no_rows (r : Result) (A : list Athlete) (C : list Coach) :
  unjoinable r A C = true ->
  inner_join (fun ra => a_coach_id (snd ra)) c_coach_id pair_coach
    (map (pair_athlete r)
         (filter (fun a => a_athlete_id a =? r_athlete_id r) A)) C
  = [].
Proof.
  unfold unjoinable. intros Hu. rewrite forallb_forall in Hu.
  apply flat_map_nil. intros ra Hra. apply in_map_iff in Hra.
  destruct Hra as [a [<- Ha]]. apply filter_In in Ha.
  destruct Ha as [Ha Hm]. specialize (Hu a Ha).
  rewrite Hm in Hu. simpl in Hu. rewrite forallb_forall in Hu.
  rewrite filter_nil; [reflexivity|].
  intros c Hc. apply negb_true_iff. now apply Hu.
Qed.

Lemma inner_join_app {L R M} (lkey : L -> Z) (rkey : R -> Z)
    (pair : L -> R -> M) (l1 l2 : list L) (right : list R) :
  inner_join lkey rkey pair (l1 ++ l2) right
  = inner_join lkey rkey pair l1 right ++ inner_join lkey rkey pair l2 right.
Proof. apply flat_map_app. Qed.

Lemma merged_rows_unjoinable (R1 R2 : list Result) (r : Result)
    (A : list Athlete) (C : list Coach) :
  unjoinable r A C = true ->
  merged_rows (R1 ++ r :: R2) A C = merged_rows (R1 ++ R2) A C.
Proof.
  intros Hu. unfold merged_rows.
  rewrite !filter_app, !inner_join_app. f_equal.
  simpl. destruct (qualifies r); [|reflexivity].
  change (inner_join r_athlete_id a_athlete_id pair_athlete
            (r :: filter qualifies R2) A)
    with (map (pair_athlete r)
              (filter (fun a => a_athlete_id a =? r_athlete_id r) A)
          ++ inner_join r_athlete_id a_athlete_id pair_athlete
               (filter qualifies R2) A).
  now rewrite inner_join_app, unjoinable_no_rows.
Qed.

(** ** The transform step: the claims *)

Section TransformClaims.
Context `{ArgSort}.

Lemma sort_values_desc_singleton (e : RankingEntry) :
  sort_values_desc [e] = [e].
Proof.
  apply Permutation_length_1_inv, Permutation_sym, sort_values_desc_perm.
Qed.

Lemma top_coaches_of_positive (merged : list MergedRow) (e : RankingEntry) :
  In e (top_coaches_of merged) -> 1 <= first_places e.
Proof.
  intros He. apply top_coaches_of_In in He.
  rewrite (groupby_size_count _ _ He).
  apply groupby_size_In, In_count_pos in He.
  unfold group_size. lia.
Qed.

(** C1, as amended: on three non-empty record sets the transform step
    returns a ranking whose length is min(3, number of distinct coach
    names having at least one qualifying result joined through to a
    coach record of that name), and every entry has a count of at
    least one: a name without qualifying result gets no entry. *)
Theorem top_k_length (R : list Result) (A : list Athlete) (C : list Coach) :
  R <> [] -> A <> [] -> C <> [] ->
  exists out,
    compute_top_k R A C = Ok out
    /\ length out = Nat.min 3 (distinct_qualifying_names R A C)
    /\ Forall (fun e => 1 <= first_places e) out.
Proof.
  intros HR HA HC. eexists. split; [now apply compute_top_k_frames|].
  split.
  - now rewrite top_coaches_of_length, unique_length_qualifying.
  - apply Forall_forall. apply top_coaches_of_positive.
Qed.

(** C2: whenever the transform step returns a ranking, each entry's
    count is greater than or equal to the count of the entry after
    it. *)
Theorem top_k_sorted (R : list Result) (A : list Athlete) (C : list Coach)
    (out : list RankingEntry) :
  compute_top_k R A C = Ok out -> sorted_desc out.
Proof.
  intros E. apply compute_top_k_Ok in E. destruct E as [_ ->].
  apply top_coaches_of_sorted.
Qed.

(** C3: on the example of the specification the transform step returns
    exactly [("A", 2)], whatever the tie-break of the sort. *)
Theorem top_k_spec_example :
  compute_top_k spec_results spec_athletes spec_coaches
  = Ok [mkEntry "A" 2].
Proof.
  rewrite compute_top_k_frames by discriminate.
  unfold top_coaches_of.
  replace (groupby_size _) with [mkEntry "A" 2] by reflexivity.
  now rewrite sort_values_desc_singleton.
Qed.

(** C4: on an empty results record set the transform step raises
    KeyError('place') instead of returning an empty ranking: the frame
    built from the empty list has no column to filter on. *)
Theorem top_k_empty_results_raises (A : list Athlete) (C : list Coach) :
  compute_top_k [] A C = Raise (KeyError "place").
Proof. reflexivity. Qed.

(** C5: with an empty athletes record set every result row is one whose
    athlete_id matches no athlete record, and the transform step raises
    KeyError('athlete_id') instead of dropping the rows: the frame built
    from the empty list has no column to merge on. *)
Theorem unjoinable_row_empty_athletes_raises (R1 R2 : list Result)
    (r : Result) (C : list Coach) :
  unjoinable r [] C = true
  /\ compute_top_k (R1 ++ r :: R2) [] C = Raise (KeyError "athlete_id").
Proof.
  split; [reflexivity|]. now destruct R1.
Qed.

(** X16: on non-empty athletes and coaches record sets, a result row
    that joins through to no coach (no athlete record of its athlete, or
    none whose coach_id a coach record carries), in particular a
    qualifying one, does not make the aggregation fail and adds nothing
    to the count of any coach name; the ranking is the one of the
    remaining rows. *)
Theorem unjoinable_row_dropped (R1 R2 : list Result) (r : Result)
    (A : list Athlete) (C : list Coach) :
  unjoinable r A C = true -> A <> [] -> C <> [] ->
  compute_top_k (R1 ++ r :: R2) A C
  = Ok (top_coaches_of (merged_rows (R1 ++ R2) A C))
  /\ forall n, name_count (R1 ++ r :: R2) A C n
               = name_count (R1 ++ R2) A C n.
Proof.
  intros Hu HA HC. split.
  - rewrite compute_top_k_frames by (try assumption; now destruct R1).
    now rewrite merged_rows_unjoinable.
  - intros n. apply Nat2Z.inj.
    now rewrite <- !group_size_merged, merged_rows_unjoinable.
Qed.

(** C10: every entry of the ranking bears a different coach name, and
    its count is the sum, over the coach records of that name, of the
    qualifying results credited to the record, a result being credited
    once for each athlete record that matches it: counts follow the
    multiplicity of the joins and namesakes are merged. *)
Theorem counts_follow_join (R : list Result) (A : list Athlete)
    (C : list Coach) (out : list RankingEntry) :
  compute_top_k R A C = Ok out ->
  NoDup (map coach_name out)
  /\ forall e, In e out ->
       first_places e = Z.of_nat (name_count R A C (coach_name e)).
Proof.
  intros E. apply compute_top_k_Ok in E. destruct E as [_ ->]. split.
  - apply top_coaches_of_NoDup.
  - intros e He. apply top_coaches_of_In in He.
    rewrite (groupby_size_count _ _ He). apply group_size_merged.
Qed.

End TransformClaims.

(** ** The load step *)

Lemma run_app (ss1 ss2 : list Statement) (c : Connection) :
  run (ss1 ++ ss2) c = (c' <- run ss1 c ;; run ss2 c').
Proof.
  revert c. induction ss1 as [|s t IH]; intros c; simpl; [reflexivity|].
  destruct (execute s c); simpl; [apply IH | reflexivity].
Qed.

Lemma observations_app (ss1 ss2 : list Statement) (c : Connection) :
  observations (ss1 ++ ss2) c
  = observations ss1 c
    ++ match run ss1 c with
       | Ok c' => observations ss2 c'
       | Raise _ => []
       end.
Proof.
  revert c. induction ss1 as [|s t IH]; intros c; simpl; [reflexivity|].
  destruct (execute s c); simpl; [now rewrite IH | reflexivity].
Qed.

Lemma max_rowid_nonneg (rs : list Row) : 0 <= max_rowid rs.
Proof. unfold max_rowid. induction rs as [|x t IH]; simpl; lia. Qed.

Lemma max_rowid_app (rs : list Row) (r : Row) :
  max_rowid (rs ++ [r]) = Z.max (max_rowid rs) (Z.max (row_id r) 0).
Proof.
  unfold max_rowid. induction rs as [|x t IH]; simpl; [lia|].
  rewrite IH. lia.
Qed.

Lemma new_rows_entries (clock : nat -> Z) (es : list RankingEntry) :
  forall (i : nat) (next : Z),
  map entry_of_row (new_rows clock i next es) = es.
Proof.
  induction es as [|e es IH]; intros i next; simpl; [reflexivity|].
  rewrite IH. now destruct e.
Qed.

(** One insert inside the open transaction. *)
Lemma execute_insert (d : Database) (t : Table) (e : RankingEntry) (now : Z) :
  execute (InsertRow e now) (mkConn d (Some (Some t)))
  = if fits_int64 (first_places e) then
      i <- next_rowid t ;;
      Ok (mkConn d (Some (Some
            (mkTable (rows t ++ [mkRow i (coach_name e) (first_places e) now])
                     i))))
    else Raise int_too_large.
Proof.
  cbn [execute begin_implicit current write pending committed].
  destruct (fits_int64 (first_places e)); [|reflexivity].
  now destruct (next_rowid t).
Qed.

(** With room in the store the inserts reach the pending state only and
    leave the rows [new_rows] tells. *)
Lemma run_inserts_within (clock : nat -> Z) (es : list RankingEntry) :
  forall (i : nat) (d : Database) (t : Table),
  forallb (fun e => fits_int64 (first_places e)) es = true ->
  Z.max (sqlite_sequence t) (max_rowid (rows t)) + Z.of_nat (length es)
  < 2 ^ 63 ->
  exists s',
    run (inserts clock i es) (mkConn d (Some (Some t)))
    = Ok (mkConn d (Some (Some
            (mkTable (rows t
                      ++ new_rows clock i
                           (Z.max (sqlite_sequence t) (max_rowid (rows t)) + 1)
                           es)
                     s'))))
    /\ (es <> [] ->
        s' = Z.max (sqlite_sequence t) (max_rowid (rows t))
             + Z.of_nat (length es))
    /\ (es = [] -> s' = sqlite_sequence t).
Proof.
  induction es as [|e es IH]; intros i d t Hfit Hroom.
  - exists (sqlite_sequence t). simpl. rewrite app_nil_r.
    destruct t. repeat split; congruence.
  - simpl in Hfit. apply andb_prop in Hfit. destruct Hfit as [He Hes].
    set (m := Z.max (sqlite_sequence t) (max_rowid (rows t))) in *.
    cbn [length] in Hroom.
    assert (En : next_rowid t = Ok (m + 1)).
    { unfold next_rowid. fold m. cbv zeta.
      destruct (Z.ltb_spec m (2 ^ 63 - 1)); [reflexivity | lia]. }
    cbn [inserts run]. rewrite execute_insert, He, En. cbn [bind].
    set (t1 := mkTable _ (m + 1)).
    assert (Em : Z.max (sqlite_sequence t1) (max_rowid (rows t1)) = m + 1).
    { unfold t1. cbn [rows sqlite_sequence]. rewrite max_rowid_app.
      cbn [row_id]. pose proof (max_rowid_nonneg (rows t)). lia. }
    destruct (IH (S i) d t1 Hes) as [s' [Hrun [Hs _]]]; [rewrite Em; lia|].
    rewrite Em in Hrun, Hs.
    exists (m + Z.of_nat (length (e :: es))). split; [|split].
    + rewrite Hrun. unfold t1. cbn [rows new_rows].
      rewrite <- app_assoc. cbn [app]. do 5 f_equal.
      destruct es as [|e' es'].
      * assert (E : s' = sqlite_sequence t1)
          by (destruct (IH (S i) d t1 Hes) as [s2 [Hrun2 [_ Hs2]]];
              [rewrite Em; lia|]; rewrite Em in Hrun2;
              rewrite Hrun in Hrun2; injection Hrun2 as <-; now apply Hs2).
        rewrite E. unfold t1. cbn. lia.
      * rewrite Hs by discriminate. cbn [length]. lia.
    + reflexivity.
    + discriminate.
Qed.

(** In any store the inserts are seen by no other connection: they end
    in the pending state, or one of them raises. *)
Lemma run_inserts_cases (clock : nat -> Z) (es : list RankingEntry) :
  forall (i : nat) (d : Database) (t : Table),
  (exists t',
      run (inserts clock i es) (mkConn d (Some (Some t)))
      = Ok (mkConn d (Some (Some t')))
      /\ map entry_of_row (rows t') = map entry_of_row (rows t) ++ es
      /\ observations (inserts clock i es) (mkConn d (Some (Some t)))
         = repeat d (length es))
  \/ (exists e k,
         run (inserts clock i es) (mkConn d (Some (Some t))) = Raise e
         /\ observations (inserts clock i es) (mkConn d (Some (Some t)))
            = repeat d k).
Proof.
  induction es as [|e es IH]; intros i d t.
  - left. exists t. simpl. now rewrite app_nil_r.
  - cbn [inserts run observations]. rewrite execute_insert.
    destruct (fits_int64 (first_places e));
      [|right; exists int_too_large, 0%nat; now split].
    destruct (next_rowid t) as [id|err]; cbn [bind];
      [|right; exists err, 0%nat; now split].
    destruct (IH (S i) d
                (mkTable (rows t ++ [mkRow id (coach_name e) (first_places e)
                                           (clock i)]) id))
      as [[t' [Hrun [Hrows Hobs]]] | [err [k [Hrun Hobs]]]].
    + left. exists t'. rewrite Hrun, Hobs. repeat split.
      rewrite Hrows. cbn [rows]. rewrite map_app, <- app_assoc.
      now destruct e.
    + right. exists err, (S k). rewrite Hrun, Hobs. now split.
Qed.

(** CREATE TABLE IF NOT EXISTS, then DELETE: the file holds the table
    with its old rows, the open transaction holds it emptied. *)
Lemma run_create_delete (db : Database) :
  run [CreateTableIfNotExists; DeleteAll] (connect db)
  = Ok (mkConn (created db) (Some (Some (mkTable [] (counter db)))))
  /\ observations [CreateTableIfNotExists; DeleteAll] (connect db)
     = [created db; created db].
Proof. destruct db as [t|]; split; reflexivity. Qed.

Lemma inserts_length (clock : nat -> Z) (es : list RankingEntry) (i : nat) :
  length (inserts clock i es) = length es.
Proof. revert i. induction es; simpl; auto. Qed.

(** The whole load, in any store: either it commits once, and the file
    is the old one until that commit brings the new rows, or an insert
    raises and the file is the old one throughout. *)
Lemma load_cases (entries : list RankingEntry) (clock : nat -> Z)
    (db : Database) :
  (exists (t' : Table) (k m : nat),
      run (load_statements entries clock) (connect db)
      = Ok (mkConn (Some t') None)
      /\ map entry_of_row (rows t') = entries
      /\ observations (load_statements entries clock) (connect db)
         = repeat (created db) k ++ repeat (Some t') m
      /\ (k + m)%nat = length (load_statements entries clock))
  \/ (exists e k,
         run (load_statements entries clock) (connect db) = Raise e
         /\ observations (load_statements entries clock) (connect db)
            = repeat (created db) k).
Proof.
  unfold load_statements.
  destruct (run_create_delete db) as [Hrun Hobs].
  rewrite run_app, observations_app, Hrun, Hobs. cbn [bind].
  destruct entries as [|e es].
  - left. exists (mkTable [] (counter db)), 2%nat, 2%nat. simpl.
    repeat split.
  - unfold DataFrame_of_records, to_sql, frame_rows.
    rewrite !observations_app, !run_app.
    destruct (run_inserts_cases clock (e :: es) 0 (created db)
                (mkTable [] (counter db)))
      as [[t' [Hins [Hrows Hobs']]] | [err [k [Hins Hobs']]]];
      rewrite Hins, Hobs'; cbn [bind].
    + left. exists t', (2 + length (e :: es))%nat, 3%nat. repeat split.
      * exact Hrows.
      * simpl. now rewrite <- app_assoc.
      * rewrite !length_app, inserts_length. simpl. lia.
    + right. exists err, (2 + k)%nat. split; [reflexivity|].
      simpl. now rewrite !app_nil_r.
Qed.

(** The load in a store with room: the table it leaves. *)
Lemma load_result (entries : list RankingEntry) (clock : nat -> Z)
    (db : Database) :
  storable db entries = true ->
  exists s',
    persist entries clock db
    = Ok (Some (mkTable (new_rows clock 0 (Z.max (counter db) 0 + 1) entries)
                        s'))
    /\ (entries <> [] ->
        s' = Z.max (counter db) 0 + Z.of_nat (length entries))
    /\ (entries = [] -> s' = counter db).
Proof.
  unfold storable. intros Hst. apply andb_prop in Hst.
  destruct Hst as [Hfit Hroom]. apply Z.ltb_lt in Hroom.
  unfold persist, load_to_database, load_statements.
  cbn [records_of top_coaches].
  destruct (run_create_delete db) as [Hrun _].
  rewrite run_app, Hrun. cbn [bind].
  destruct entries as [|e es].
  - exists (counter db). cbn. repeat split. congruence.
  - unfold DataFrame_of_records, to_sql, frame_rows.
    destruct (run_inserts_within clock (e :: es) 0 (created db)
                (mkTable [] (counter db)) Hfit)
      as [s' [Hins [Hs _]]]; [exact Hroom|].
    rewrite !run_app, Hins. cbn. exists s'. repeat split.
    + intros _. now apply Hs.
    + discriminate.
Qed.

Lemma persist_stored (entries : list RankingEntry) (clock : nat -> Z)
    (db : Database) :
  storable db entries = true ->
  exists t',
    persist entries clock db = Ok (Some t')
    /\ map entry_of_row (rows t') = entries.
Proof.
  intros Hst. destruct (load_result entries clock db Hst) as [s' [Hp _]].
  eexists. split; [exact Hp|]. apply new_rows_entries.
Qed.

(** An empty ranking is loaded into any store. *)
Lemma persist_empty (clock : nat -> Z) (db : Database) :
  persist [] clock db = Ok (Some (mkTable [] (counter db))).
Proof. now destruct db. Qed.


Lemma last_repeat {X} (x d : X) (k : nat) : last (repeat x (S k)) d = x.
Proof.
  induction k as [|k IH]; [reflexivity|].
  change (repeat x (S (S k))) with (x :: repeat x (S k)).
  change (last (x :: repeat x (S k)) d) with (last (repeat x (S k)) d).
  exact IH.
Qed.

(** C6, as amended: on a store with room for the new rows (the row ids,
    which go on from the AUTOINCREMENT counter, stay below 2^63) and for
    entries whose counts are 64-bit integers, persist succeeds and the
    table then holds exactly the supplied entries, in their order, and
    nothing of the old ranking. *)
Theorem persist_overwrites (entries : list RankingEntry) (clock : nat -> Z)
    (db : Database) :
  storable db entries = true ->
  exists db',
    persist entries clock db = Ok db'
    /\ stored_entries db' = entries.
Proof.
  intros Hst.
  destruct (persist_stored entries clock db Hst) as [t' [Hp Hrows]].
  exists (Some t'). now split.
Qed.


(** C9: after each statement of the load another connection reads
    either the ranking stored before the load or the new entries: the
    delete and the inserts become visible together, at one commit, and
    the emptied table in between is never read.  In a store with room
    every statement of the load runs; when the load raises, only the old
    ranking is ever read and the file keeps it. *)
Theorem load_atomic (entries : list RankingEntry) (clock : nat -> Z)
    (db : Database) :
  Forall (fun d => stored_entries d = stored_entries db
                   \/ stored_entries d = entries)
         (observations (load_statements entries clock) (connect db))
  /\ (storable db entries = true ->
      length (observations (load_statements entries clock) (connect db))
      = length (load_statements entries clock))
  /\ (forall e, persist entries clock db = Raise e ->
      Forall (fun d => stored_entries d = stored_entries db)
             (observations (load_statements entries clock) (connect db))
      /\ stored_entries
           (file_after (load_statements entries clock) (connect db))
         = stored_entries db).
Proof.
  assert (Hold : stored_entries (created db) = stored_entries db)
    by now destruct db.
  unfold persist, load_to_database, file_after. cbn [records_of top_coaches].
  destruct (load_cases entries clock db)
    as [[t' [k [m [Hrun [Hrows [Hobs Hlen]]]]]] | [err [k [Hrun Hobs]]]];
    rewrite Hrun, Hobs; cbn [bind]; repeat split.
  - apply Forall_app. split; apply Forall_forall; intros d Hd;
      apply repeat_spec in Hd; subst d; [now left | now right].
  - intros _. now rewrite length_app, !repeat_length.
  - discriminate.
  - discriminate.
  - apply Forall_forall. intros d Hd. apply repeat_spec in Hd. subst d.
    now left.
  - intros Hst. destruct (persist_stored entries clock db Hst) as [t' [Hp _]].
    unfold persist, load_to_database in Hp. cbn [records_of top_coaches] in Hp.
    rewrite Hrun in Hp. discriminate.
  - apply Forall_forall. intros d Hd. apply repeat_spec in Hd. now subst d.
  - destruct k as [|k]; [reflexivity|]. now rewrite last_repeat.
Qed.

(** ** The claims on sample inputs *)

(** C1, as stated, fails: coaches 10 and 11 are two distinct coaches,
    each with a first place, but they share the name A and get one
    entry. *)
Lemma top_k_length_by_coach_fails :
  @compute_top_k insertion_ArgSort
     namesake_results spec_athletes namesake_coaches
  = Ok [mkEntry "A" 2]
  /\ distinct_qualifying_coaches namesake_results spec_athletes
       namesake_coaches = 2%nat
  /\ length [mkEntry "A" 2]
     <> Nat.min 3 (distinct_qualifying_coaches namesake_results spec_athletes
                     namesake_coaches).
Proof. repeat split. vm_compute. discriminate. Qed.

Lemma top_k_length_witness :
  (tied_results <> [] /\ tied_athletes <> [] /\ tied_coaches <> [])
  /\ exists out,
       @compute_top_k insertion_ArgSort tied_results tied_athletes
          tied_coaches = Ok out
       /\ length out
          = Nat.min 3 (distinct_qualifying_names tied_results tied_athletes
                         tied_coaches)
       /\ Forall (fun e => 1 <= first_places e) out.
Proof.
  split; [repeat split; discriminate|].
  apply (@top_k_length insertion_ArgSort); discriminate.
Defined.

Lemma top_k_sorted_witness :
  @compute_top_k insertion_ArgSort tied_results tied_athletes tied_coaches
  = Ok [mkEntry "D" 2; mkEntry "A" 1; mkEntry "B" 1]
  /\ sorted_desc [mkEntry "D" 2; mkEntry "A" 1; mkEntry "B" 1].
Proof.
  split; [reflexivity|].
  apply (@top_k_sorted insertion_ArgSort tied_results tied_athletes
           tied_coaches).
  reflexivity.
Defined.

Lemma unjoinable_row_dropped_witness :
  (unjoinable orphan_result stray_athletes spec_coaches = true
   /\ unjoinable stray_result stray_athletes spec_coaches = true
   /\ stray_athletes <> [] /\ spec_coaches <> [])
  /\ @compute_top_k insertion_ArgSort
        ([mkResult 1 1] ++ orphan_result :: [mkResult 3 1])
        stray_athletes spec_coaches
     = Ok (@top_coaches_of insertion_ArgSort
             (merged_rows ([mkResult 1 1] ++ [mkResult 3 1])
                          stray_athletes spec_coaches))
  /\ @compute_top_k insertion_ArgSort
        ([mkResult 1 1] ++ stray_result :: [mkResult 3 1])
        stray_athletes spec_coaches
     = Ok (@top_coaches_of insertion_ArgSort
             (merged_rows ([mkResult 1 1] ++ [mkResult 3 1])
                          stray_athletes spec_coaches)).
Proof.
  split; [repeat split; try reflexivity; discriminate|].
  split.
  - apply (@unjoinable_row_dropped insertion_ArgSort [mkResult 1 1]
             [mkResult 3 1] orphan_result stray_athletes spec_coaches);
      [reflexivity | discriminate | discriminate].
  - apply (@unjoinable_row_dropped insertion_ArgSort [mkResult 1 1]
             [mkResult 3 1] stray_result stray_athletes spec_coaches);
      [reflexivity | discriminate | discriminate].
Defined.

Lemma counts_follow_join_witness :
  @compute_top_k insertion_ArgSort
     namesake_results doubled_athletes namesake_coaches
  = Ok [mkEntry "A" 3]
  /\ NoDup (map coach_name [mkEntry "A" 3])
  /\ forall e, In e [mkEntry "A" 3] ->
       first_places e
       = Z.of_nat (name_count namesake_results doubled_athletes
                     namesake_coaches (coach_name e)).
Proof.
  split; [reflexivity|].
  apply (@counts_follow_join insertion_ArgSort namesake_results
           doubled_athletes namesake_coaches).
  reflexivity.
Defined.

(** The first place of athlete 1 is credited twice to coach 10, once
    for each of the two records of the athlete; coach 11 has one; the
    entry A carries the sum. *)
Example doubled_athlete_credits :
  credited namesake_results doubled_athletes (mkCoach 10 "A") = 2%nat
  /\ credited namesake_results doubled_athletes (mkCoach 11 "A") = 1%nat
  /\ name_count namesake_results doubled_athletes namesake_coaches "A"
     = 3%nat.
Proof. repeat split. Qed.

(** Results without a first place give an empty ranking, which the load
    step stores as zero rows. *)
Example no_winner_ranking :
  @compute_top_k insertion_ArgSort [mkResult 3 2] spec_athletes spec_coaches
  = Ok []
  /\ stored_entries (Some (mkTable [] 1)) = []
  /\ persist [] (fun _ => 0) (Some (mkTable [mkRow 1 "Z" 9 5] 1))
     = Ok (Some (mkTable [] 1)).
Proof. repeat split. Qed.

(** An empty results record set makes the transform task fail, so that
    nothing is pushed for the load step. *)
Example empty_results_task_fails :
  @transform_data insertion_ArgSort
     (mkXCom (Some spec_athletes) (Some spec_coaches) (Some []) None)
  = Raise (KeyError "place").
Proof. reflexivity. Qed.

(** A load over a stored ranking, as another connection reads it after
    each statement. *)
Example load_observed :
  map stored_entries
      (observations (load_statements [mkEntry "A" 2] (fun _ => 100))
                    (connect (Some (mkTable [mkRow 1 "Z" 9 5] 1))))
  = [[mkEntry "Z" 9]; [mkEntry "Z" 9]; [mkEntry "Z" 9];
     [mkEntry "A" 2]; [mkEntry "A" 2]; [mkEntry "A" 2]].
Proof. reflexivity. Qed.

(** ** More on the transform step *)

Lemma StronglySorted_app_le {X} (le : X -> X -> Prop) (l1 l2 : list X) :
  StronglySorted le (l1 ++ l2) ->
  forall x y, In x l1 -> In y l2 -> le x y.
Proof.
  induction l1 as [|a t IH]; simpl; intros Hs x y Hx Hy; [destruct Hx|].
  inversion Hs as [|? ? Ht Ha]; subst.
  destruct Hx as [<-|Hx]; [|now apply IH].
  rewrite Forall_forall in Ha. apply Ha, in_or_app. now right.
Qed.

Lemma groupby_size_entry (names : list string) (n : string) :
  In n names -> In (mkEntry n (group_size names n)) (groupby_size names).
Proof.
  intros Hn. unfold groupby_size.
  apply (in_map (fun n => mkEntry n (group_size names n))).
  apply (Permutation_in _ (Permutation_sym (isort_perm _ _))).
  now apply unique_In.
Qed.

Lemma sum_first_places_app (l1 l2 : list RankingEntry) :
  sum_first_places (l1 ++ l2) = sum_first_places l1 + sum_first_places l2.
Proof.
  unfold sum_first_places. induction l1 as [|e t IH]; simpl; [reflexivity|].
  rewrite IH. lia.
Qed.

Lemma sum_first_places_perm (l1 l2 : list RankingEntry) :
  Permutation l1 l2 -> sum_first_places l1 = sum_first_places l2.
Proof.
  unfold sum_first_places.
  induction 1; simpl; try lia.
Qed.

Lemma count_in_NoDup (names keys : list string) :
  NoDup keys -> (forall n, In n names -> In n keys) ->
  list_sum (map (fun k => length (filter (String.eqb k) names)) keys)
  = length names.
Proof.
  intros Hnd. induction names as [|x t IH]; intros Hin; simpl.
  - clear Hnd Hin. induction keys; simpl; auto.
  - rewrite <- IH by (intros; apply Hin; now right).
    assert (Hx : In x keys) by (apply Hin; now left).
    clear IH Hin. revert Hx.
    induction Hnd as [|k ks Hk Hks IHk]; simpl; intros Hx; [destruct Hx|].
    destruct Hx as [->|Hx].
    + rewrite String.eqb_refl. simpl. do 3 f_equal.
      apply map_ext_in. intros k Hk'.
      destruct (String.eqb_spec k x) as [->|_]; [contradiction | reflexivity].
    + destruct (String.eqb_spec k x) as [->|_]; [contradiction|].
      rewrite IHk by exact Hx. lia.
Qed.

Lemma groupby_size_sum (names : list string) :
  sum_first_places (groupby_size names) = Z.of_nat (length names).
Proof.
  rewrite <- (@count_in_NoDup names (isort String.leb (unique names))).
  - unfold groupby_size, sum_first_places, group_size.
    induction (isort String.leb (unique names)) as [|k ks IH]; simpl;
      [reflexivity|].
    rewrite IH. lia.
  - apply (Permutation_NoDup (Permutation_sym (isort_perm _ _))).
    apply unique_NoDup.
  - intros n Hn.
    apply (Permutation_in _ (Permutation_sym (isort_perm _ _))).
    now apply unique_In.
Qed.

Lemma sum_first_places_nonneg (names : list string) (l : list RankingEntry) :
  (forall e, In e l -> In e (groupby_size names)) -> 0 <= sum_first_places l.
Proof.
  unfold sum_first_places.
  induction l as [|e t IH]; simpl; intros Hin; [lia|].
  assert (0 <= first_places e).
  { rewrite (groupby_size_count names e) by (apply Hin; now left).
    unfold group_size. lia. }
  assert (0 <= fold_right Z.add 0 (map first_places t))
    by (apply IH; intros; apply Hin; now right).
  lia.
Qed.

Lemma filter_key_NoDup {X} (key : X -> Z) (k : Z) (l : list X) :
  NoDup (map key l) ->
  (length (filter (fun x => (key x =? k)%Z) l) <= 1)%nat.
Proof.
  induction l as [|x t IH]; simpl; intros Hnd; [lia|].
  inversion Hnd as [|? ? Hx Ht]; subst.
  destruct (Z.eqb_spec (key x) k) as [E|_]; [|now apply IH].
  rewrite filter_nil; [simpl; lia|].
  intros y Hy. apply Z.eqb_neq. intros E'. apply Hx.
  rewrite E, <- E'. now apply in_map.
Qed.

Lemma inner_join_length_NoDup {L R M} (lkey : L -> Z) (rkey : R -> Z)
    (pair : L -> R -> M) (left : list L) (right : list R) :
  NoDup (map rkey right) ->
  (length (inner_join lkey rkey pair left right) <= length left)%nat.
Proof.
  intros Hnd. unfold inner_join.
  induction left as [|l t IH]; simpl; [lia|].
  rewrite length_app, length_map.
  pose proof (filter_key_NoDup rkey (lkey l) right Hnd). lia.
Qed.

Section TransformFacts.
Context `{ArgSort}.

Lemma sorted_groups_sum (merged : list MergedRow) :
  sum_first_places (sort_values_desc (groupby_size (map m_coach_name merged)))
  = Z.of_nat (length merged).
Proof.
  rewrite (sum_first_places_perm (sort_values_desc_perm _)), groupby_size_sum.
  now rewrite length_map.
Qed.

Lemma top_coaches_of_sum_le (merged : list MergedRow) :
  sum_first_places (top_coaches_of merged) <= Z.of_nat (length merged).
Proof.
  rewrite <- sorted_groups_sum. unfold top_coaches_of, head.
  set (sorted := sort_values_desc _).
  rewrite <- (firstn_skipn 3 sorted) at 2. rewrite sum_first_places_app.
  assert (0 <= sum_first_places (skipn 3 sorted)); [|lia].
  apply (@sum_first_places_nonneg (map m_coach_name merged)). intros e He.
  apply (Permutation_in _ (sort_values_desc_perm _)).
  fold sorted. rewrite <- (firstn_skipn 3 sorted).
  apply in_or_app. now right.
Qed.

(** X1: a coach name with a qualifying result that the ranking leaves
    out has no more first places than any entry of the ranking, and the
    ranking is then full. *)
Theorem top_k_maximal (R : list Result) (A : list Athlete) (C : list Coach)
    (out : list RankingEntry) (n : string) :
  compute_top_k R A C = Ok out ->
  (0 < name_count R A C n)%nat ->
  ~ In n (map coach_name out) ->
  length out = 3%nat
  /\ forall e, In e out -> Z.of_nat (name_count R A C n) <= first_places e.
Proof.
  intros E Hpos Hout. apply compute_top_k_Ok in E. destruct E as [_ ->].
  set (names := map m_coach_name (merged_rows R A C)) in *.
  set (sorted := sort_values_desc (groupby_size names)).
  assert (Hn : In n names).
  { apply In_count_pos.
    assert (E : group_size names n = Z.of_nat (name_count R A C n))
      by apply group_size_merged.
    unfold group_size in E. apply Nat2Z.inj in E. now rewrite E. }
  assert (He : In (mkEntry n (group_size names n)) sorted).
  { apply (Permutation_in _ (Permutation_sym (sort_values_desc_perm _))).
    now apply groupby_size_entry. }
  unfold top_coaches_of, head in *. fold names in Hout |- *. fold sorted in Hout |- *.
  rewrite <- (firstn_skipn 3 sorted) in He.
  apply in_app_or in He. destruct He as [He|He].
  { exfalso. apply Hout. now apply (in_map coach_name) in He. }
  split.
  - rewrite length_firstn. destruct (skipn 3 sorted) as [|x t] eqn:Es;
      [destruct He|].
    assert (L : (length (skipn 3 sorted) > 0)%nat) by (rewrite Es; simpl; lia).
    rewrite length_skipn in L. lia.
  - intros e Hin.
    pose proof (sort_values_desc_sorted (groupby_size names)) as Hs.
    fold sorted in Hs. rewrite <- (firstn_skipn 3 sorted), map_app in Hs.
    rewrite <- (group_size_merged R A C n). fold names.
    apply (@StronglySorted_app_le _ _ _ _ Hs (first_places e)
             (first_places (mkEntry n (group_size names n))));
      now apply in_map.
Qed.

(** X2: the first places of the ranking never add up to more than the
    rows of the merged frame, and add up to exactly that many when at
    most three coach names qualify. *)
Theorem top_k_sum (R : list Result) (A : list Athlete) (C : list Coach)
    (out : list RankingEntry) :
  compute_top_k R A C = Ok out ->
  sum_first_places out <= Z.of_nat (length (merged_rows R A C))
  /\ ((distinct_qualifying_names R A C <= 3)%nat ->
      sum_first_places out = Z.of_nat (length (merged_rows R A C))).
Proof.
  intros E. apply compute_top_k_Ok in E. destruct E as [_ ->]. split.
  - apply top_coaches_of_sum_le.
  - intros Hle. rewrite <- sorted_groups_sum.
    unfold top_coaches_of, head. f_equal. apply firstn_all2.
    rewrite (Permutation_length (sort_values_desc_perm _)),
      groupby_size_length.
    now rewrite unique_length_qualifying.
Qed.

(** X3: when no two athlete records share an athlete_id and no two
    coach records share a coach_id, no first place is counted twice:
    the first places of the ranking add up to at most the number of
    qualifying results. *)
Theorem top_k_no_double_count (R : list Result) (A : list Athlete)
    (C : list Coach) (out : list RankingEntry) :
  NoDup (map a_athlete_id A) -> NoDup (map c_coach_id C) ->
  compute_top_k R A C = Ok out ->
  sum_first_places out <= Z.of_nat (length (filter qualifies R)).
Proof.
  intros HA HC E. apply compute_top_k_Ok in E. destruct E as [_ ->].
  pose proof (top_coaches_of_sum_le (merged_rows R A C)) as Hsum.
  assert (Hlen : (length (merged_rows R A C) <= length (filter qualifies R))%nat).
  { unfold merged_rows.
    eapply Nat.le_trans; [apply inner_join_length_NoDup, HC|].
    apply inner_join_length_NoDup, HA. }
  lia.
Qed.

(** X4: a result whose place is not 1 never changes the ranking, as long
    as other results remain. *)
Theorem non_qualifying_row_ignored (R1 R2 : list Result) (r : Result)
    (A : list Athlete) (C : list Coach) :
  r_place r <> 1 -> R1 ++ R2 <> [] ->
  compute_top_k (R1 ++ r :: R2) A C = compute_top_k (R1 ++ R2) A C.
Proof.
  intros Hp Hne.
  assert (Hm : merged_rows (R1 ++ r :: R2) A C = merged_rows (R1 ++ R2) A C).
  { unfold merged_rows. rewrite !filter_app. simpl.
    unfold qualifies at 2. now destruct (Z.eqb_spec (r_place r) 1). }
  destruct A as [|a A'];
    [destruct R1, R2; try reflexivity; now contradiction Hne|].
  destruct C as [|c C'];
    [destruct R1, R2; try reflexivity; now contradiction Hne|].
  rewrite !compute_top_k_frames
    by (try discriminate; try assumption; now destruct R1).
  now rewrite Hm.
Qed.
End TransformFacts.

(** *** The order of the input records *)

Lemma ascii_compare_lt_trans (a b c : ascii) :
  Ascii.compare a b = Lt -> Ascii.compare b c = Lt -> Ascii.compare a c = Lt.
Proof.
  unfold Ascii.compare. rewrite !N.compare_lt_iff. apply N.lt_trans.
Qed.

Lemma string_leb_trans (s1 s2 s3 : string) :
  String.leb s1 s2 = true -> String.leb s2 s3 = true ->
  String.leb s1 s3 = true.
Proof.
  unfold String.leb. revert s2 s3.
  induction s1 as [|a s1 IH]; intros [|b s2] [|c s3]; simpl;
    try congruence; try reflexivity.
  destruct (Ascii.compare a b) eqn:Eab; try congruence;
    destruct (Ascii.compare b c) eqn:Ebc; try congruence.
  - apply Ascii.compare_eq_iff in Eab, Ebc. subst.
    assert (E : Ascii.compare c c = Eq) by apply N.compare_refl.
    rewrite E. apply IH.
  - apply Ascii.compare_eq_iff in Eab. subst. now rewrite Ebc.
  - apply Ascii.compare_eq_iff in Ebc. subst. now rewrite Eab.
  - now rewrite (ascii_compare_lt_trans _ _ _ Eab Ebc).
Qed.

Lemma sorted_perm_unique {X} (le : X -> X -> Prop)
    (antisym : forall x y, le x y -> le y x -> x = y) (l1 l2 : list X) :
  StronglySorted le l1 -> StronglySorted le l2 -> Permutation l1 l2 ->
  l1 = l2.
Proof.
  intros H1. revert l2.
  induction H1 as [|x t Ht IH Hx]; intros l2 H2 Hp.
  - symmetry. now apply Permutation_nil.
  - destruct H2 as [|y u Hu Hy];
      [now apply Permutation_sym, Permutation_nil in Hp|].
    assert (E : x = y).
    { assert (Hxin : In x (y :: u)) by (apply (Permutation_in _ Hp); now left).
      assert (Hyin : In y (x :: t))
        by (apply (Permutation_in _ (Permutation_sym Hp)); now left).
      destruct Hxin as [E|Hxin]; [now symmetry|].
      destruct Hyin as [E|Hyin]; [exact E|].
      rewrite Forall_forall in Hx, Hy. apply antisym; auto. }
    subst y. f_equal. apply IH; [exact Hu|].
    now apply Permutation_cons_inv in Hp.
Qed.

Lemma isort_names_perm (l1 l2 : list string) :
  Permutation l1 l2 -> isort String.leb l1 = isort String.leb l2.
Proof.
  intros Hp.
  apply (@sorted_perm_unique _ (fun x y => String.leb x y = true)
           String.leb_antisym).
  - apply isort_sorted; [apply String.leb_total | apply string_leb_trans].
  - apply isort_sorted; [apply String.leb_total | apply string_leb_trans].
  - eapply Permutation_trans; [apply isort_perm|].
    eapply Permutation_trans; [exact Hp | apply Permutation_sym, isort_perm].
Qed.

Lemma Permutation_filter {X} (p : X -> bool) (l1 l2 : list X) :
  Permutation l1 l2 -> Permutation (filter p l1) (filter p l2).
Proof.
  induction 1 as [|x l l' Hp IH|x y l|l l' l'' H1 IH1 H2 IH2]; simpl.
  - constructor.
  - destruct (p x); [now constructor | exact IH].
  - destruct (p x), (p y); try apply Permutation_refl. apply perm_swap.
  - eapply Permutation_trans; eassumption.
Qed.

Lemma flat_map_perm_ext {X Y} (f g : X -> list Y) (l : list X) :
  (forall x, Permutation (f x) (g x)) ->
  Permutation (flat_map f l) (flat_map g l).
Proof.
  intros Hfg. induction l as [|x t IH]; simpl; [constructor|].
  now apply Permutation_app.
Qed.

Lemma inner_join_perm {L R M} (lkey : L -> Z) (rkey : R -> Z)
    (pair : L -> R -> M) (l1 l2 : list L) (r1 r2 : list R) :
  Permutation l1 l2 -> Permutation r1 r2 ->
  Permutation (inner_join lkey rkey pair l1 r1)
              (inner_join lkey rkey pair l2 r2).
Proof.
  intros Hl Hr. unfold inner_join.
  eapply Permutation_trans; [apply Permutation_flat_map, Hl|].
  apply flat_map_perm_ext. intros l.
  now apply Permutation_map, Permutation_filter.
Qed.

Lemma merged_rows_perm (R R' : list Result) (A A' : list Athlete)
    (C C' : list Coach) :
  Permutation R R' -> Permutation A A' -> Permutation C C' ->
  Permutation (merged_rows R A C) (merged_rows R' A' C').
Proof.
  intros HR HA HC. unfold merged_rows.
  apply inner_join_perm; [|exact HC].
  apply inner_join_perm; [|exact HA].
  now apply Permutation_filter.
Qed.

Lemma groupby_size_perm (names names' : list string) :
  Permutation names names' -> groupby_size names = groupby_size names'.
Proof.
  intros Hp. unfold groupby_size.
  rewrite (isort_names_perm (l1 := unique names) (l2 := unique names')).
  - apply map_ext. intros n. unfold group_size. do 2 f_equal.
    apply Permutation_length, Permutation_filter, Hp.
  - apply NoDup_Permutation; try apply unique_NoDup.
    intros n. rewrite !unique_In. split; apply Permutation_in;
      [exact Hp | now apply Permutation_sym].
Qed.

Lemma perm_nonempty {X} (l l' : list X) :
  Permutation l l' -> l <> [] -> l' <> [].
Proof.
  intros Hp Hl ->. apply Hl. now apply Permutation_sym, Permutation_nil in Hp.
Qed.

Section InputOrder.
Context `{ArgSort}.

(** X5: the ranking does not depend on the order of the records in the
    three inputs: reordering results, athletes or coaches gives the same
    entries in the same order, or the same exception. *)
Theorem top_k_input_order (R R' : list Result) (A A' : list Athlete)
    (C C' : list Coach) :
  Permutation R R' -> Permutation A A' -> Permutation C C' ->
  compute_top_k R A C = compute_top_k R' A' C'.
Proof.
  intros HR HA HC.
  destruct R as [|r R0];
    [apply Permutation_nil in HR; now subst|].
  destruct A as [|a A0].
  { apply Permutation_nil in HA. subst.
    destruct R' as [|r' R0'];
      [now apply Permutation_sym, Permutation_nil in HR | reflexivity]. }
  destruct C as [|c C0].
  { apply Permutation_nil in HC. subst.
    destruct R' as [|r' R0'];
      [now apply Permutation_sym, Permutation_nil in HR|].
    destruct A' as [|a' A0'];
      [now apply Permutation_sym, Permutation_nil in HA | reflexivity]. }
  rewrite !compute_top_k_frames;
    try discriminate;
    try (eapply perm_nonempty; [eassumption | discriminate]).
  unfold top_coaches_of. do 3 f_equal.
  apply groupby_size_perm, Permutation_map.
  now apply merged_rows_perm.
Qed.
End InputOrder.

(** ** The report step: facts *)

Lemma stable_order_sorted (rs : list Row) :
  StronglySorted (fun x y => y <= x)
                 (map row_first_places (isort geb_first_places rs)).
Proof.
  assert (Hs : StronglySorted (fun r1 r2 => geb_first_places r1 r2 = true)
                              (isort geb_first_places rs)).
  { apply isort_sorted; unfold geb_first_places; intros.
    - destruct (Z.leb_spec (row_first_places y) (row_first_places x));
        [now left | right; apply Z.leb_le; lia].
    - rewrite Z.leb_le in *. lia. }
  induction Hs as [|r t Ht IH Hr]; simpl; constructor; [exact IH|].
  rewrite Forall_forall in *. intros z Hz.
  apply in_map_iff in Hz. destruct Hz as [q [<- Hq]].
  apply Z.leb_le. now apply Hr.
Qed.

#[export] Instance stable_OrderBy : OrderBy := {|
  order_by_desc := isort geb_first_places;
  order_by_perm := isort_perm geb_first_places;
  order_by_sorted := stable_order_sorted
|}.

Lemma sorted_desc_keys (l : list RankingEntry) :
  sorted_desc l ->
  StronglySorted (fun x y => y <= x) (map first_places l).
Proof.
  intros Hs. apply Sorted_StronglySorted in Hs;
    [|intros x y z Hxy Hyz; lia].
  induction Hs as [|e t Ht IH He]; simpl; constructor; [exact IH|].
  rewrite Forall_forall in *. intros z Hz.
  apply in_map_iff in Hz. destruct Hz as [q [<- Hq]].
  apply Z.ge_le. now apply He.
Qed.

(** Two orderings of the same entries by non-increasing count show the
    same counts in the same places. *)
Lemma sorted_perm_counts (l1 l2 : list RankingEntry) :
  Permutation l1 l2 -> sorted_desc l1 -> sorted_desc l2 ->
  map first_places l1 = map first_places l2.
Proof.
  intros Hp H1 H2.
  apply (@sorted_perm_unique _ (fun x y : Z => y <= x)).
  - intros x y Hxy Hyx. lia.
  - now apply sorted_desc_keys.
  - now apply sorted_desc_keys.
  - now apply Permutation_map.
Qed.

Lemma perm_same_keys {X} (key : X -> Z) (l1 l2 : list X) :
  Permutation l1 l2 -> NoDup (map key l2) -> map key l1 = map key l2 ->
  l1 = l2.
Proof.
  revert l2. induction l1 as [|x t IH]; intros [|y u] Hp Hnd Hk;
    try discriminate; [reflexivity|].
  simpl in Hk. injection Hk as Hxy Hk.
  inversion Hnd as [|? ? Hy Hu]; subst.
  assert (E : x = y).
  { assert (Hx : In x (y :: u)) by (apply (Permutation_in _ Hp); now left).
    destruct Hx as [E|Hx]; [now symmetry|].
    exfalso. apply Hy. rewrite <- Hxy. now apply in_map. }
  subst y. f_equal. apply IH; auto.
  now apply Permutation_cons_inv in Hp.
Qed.

Lemma count_nl_app (s1 s2 : string) :
  count_nl (s1 ++ s2)%string = (count_nl s1 + count_nl s2)%nat.
Proof.
  induction s1 as [|c s1 IH]; simpl; [reflexivity|]. rewrite IH. lia.
Qed.

Lemma count_nl_uint (d : Decimal.uint) :
  count_nl (NilEmpty.string_of_uint d) = 0%nat.
Proof. induction d; simpl; auto. Qed.

Lemma count_nl_show_Z (z : Z) : count_nl (show_Z z) = 0%nat.
Proof.
  unfold show_Z.
  assert (Hu : forall d, count_nl (NilZero.string_of_uint d) = 0%nat)
    by (intros d; destruct d; try reflexivity; apply count_nl_uint).
  destruct (Z.to_int z); simpl; auto.
Qed.

Lemma count_nl_report_line (i : nat) (row : RankingEntry) :
  count_nl (coach_name row) = 0%nat ->
  count_nl (report_line i row) = 1%nat.
Proof.
  intros Hn. unfold report_line.
  rewrite !count_nl_app, !count_nl_show_Z, Hn. reflexivity.
Qed.

Lemma count_nl_report_lines (df : list RankingEntry) :
  Forall (fun row => count_nl (coach_name row) = 0%nat) df ->
  forall (i : nat) (init : string),
  count_nl (fold_left (fun report ir =>
                         (report ++ report_line (fst ir) (snd ir))%string)
                      (combine (seq i (length df)) df) init)
  = (count_nl init + length df)%nat.
Proof.
  induction 1 as [|row t Hrow Ht IH]; intros i init; simpl; [lia|].
  rewrite IH, count_nl_app, count_nl_report_line by exact Hrow. lia.
Qed.

Section ReportFacts.
Context `{OrderBy}.

Lemma read_ranking_rows (t : Table) :
  exists df,
    read_ranking (Some t) = Done df
    /\ Permutation df (map entry_of_row (rows t))
    /\ sorted_desc df.
Proof.
  eexists. split; [reflexivity|]. split.
  - apply Permutation_map, order_by_perm.
  - apply sorted_desc_of_keys. rewrite map_map.
    apply (order_by_sorted (rows t)).
Qed.

(** X6: after a load into a store with room for it, the report read
    back lists exactly the entries stored, by non-increasing count; when
    the entries were stored in that order the counts appear in the same
    places, and when moreover no two counts are equal the report lists
    the entries as stored. *)
Theorem report_after_load (entries : list RankingEntry) (clock : nat -> Z)
    (db : Database) :
  storable db entries = true ->
  exists db' df,
    persist entries clock db = Ok db'
    /\ read_ranking db' = Done df
    /\ Permutation df entries
    /\ sorted_desc df
    /\ (sorted_desc entries ->
        map first_places df = map first_places entries)
    /\ (sorted_desc entries -> NoDup (map first_places entries) ->
        df = entries).
Proof.
  intros Hst.
  destruct (persist_stored entries clock db Hst) as [t' [Hp Hrows]].
  destruct (read_ranking_rows t') as [df [Hread [Hperm Hsorted]]].
  rewrite Hrows in Hperm.
  exists (Some t'), df. repeat split; auto.
  - intros Hs. now apply sorted_perm_counts.
  - intros Hs Hnd. apply (perm_same_keys first_places); auto.
    now apply sorted_perm_counts.
Qed.

(** X7: when neither the time stamp nor any coach name holds a line
    end, the report text has four header lines and one line for every
    row of the table. *)
Theorem report_line_count (now : string) (df : list RankingEntry) :
  count_nl now = 0%nat ->
  Forall (fun row => count_nl (coach_name row) = 0%nat) df ->
  count_nl (report_text now df) = (4 + length df)%nat.
Proof.
  intros Hnow Hdf. unfold report_text.
  rewrite count_nl_report_lines by exact Hdf.
  unfold report_header. rewrite !count_nl_app, Hnow. reflexivity.
Qed.
End ReportFacts.

(** ** The DAG: facts *)

Lemma load_to_database_persist (context : XCom) (clock : nat -> Z)
    (db : Database) :
  load_to_database context clock db
  = persist (records_of (top_coaches context)) clock db.
Proof. reflexivity. Qed.

Section DagFacts.
Context `{ArgSort} `{OrderBy}.

Lemma attempt_success (n : nat) (t : Task) (run : Run) (w w' : World) :
  python_callable t run w = Done w' -> attempt n t run w = (success, w').
Proof. intros E. destruct n; simpl; now rewrite E. Qed.

Lemma attempt_failure (n : nat) (t : Task) (run : Run) (w : World)
    (e : Failure) :
  python_callable t run w = Failed e ->
  after_failure t run w = w ->
  attempt n t run w = (failed e, send_alert t w).
Proof.
  intros E Hw. induction n as [|n IH]; simpl; rewrite E, Hw; auto.
Qed.

Lemma run_task_success (run : Run) (states : list (Task * TaskState))
    (w w' : World) (t : Task) :
  forallb (fun u => is_success (state_of states u)) (upstream t) = true ->
  python_callable t run w = Done w' ->
  run_task run (states, w) t = (states ++ [(t, success)], w').
Proof.
  intros Hup E. unfold run_task. rewrite Hup.
  now rewrite (@attempt_success retries t run w w' E).
Qed.

Lemma run_task_failed (run : Run) (states : list (Task * TaskState))
    (w : World) (t : Task) (e : Failure) :
  forallb (fun u => is_success (state_of states u)) (upstream t) = true ->
  python_callable t run w = Failed e ->
  after_failure t run w = w ->
  run_task run (states, w) t = (states ++ [(t, failed e)], send_alert t w).
Proof.
  intros Hup E Hw. unfold run_task. rewrite Hup.
  now rewrite (@attempt_failure retries t run w e E Hw).
Qed.

Lemma run_task_upstream_failed (run : Run)
    (states : list (Task * TaskState)) (w : World) (t : Task) :
  forallb (fun u => is_success (state_of states u)) (upstream t) = false ->
  run_task run (states, w) t = (states ++ [(t, upstream_failed)], w).
Proof. intros Hup. unfold run_task. now rewrite Hup. Qed.

(** X8: when the three files are read, the transform step returns a
    ranking and the store has room for it, every task of the run
    succeeds; the database then holds that ranking, the report file and
    the CSV file hold what is read back from it, and exactly one mail is
    added, carrying that report in its body and the two files as
    written. *)
Theorem run_dag_success (run : Run) (w : World) (R : list Result)
    (A : list Athlete) (C : list Coach) (top : list RankingEntry) :
  files run = mkFiles (Some A) (Some C) (Some R) ->
  compute_top_k R A C = Ok top ->
  storable (w_db w) top = true ->
  exists db' df,
    persist top (clock run) (w_db w) = Ok db'
    /\ stored_entries db' = top
    /\ read_ranking db' = Done df
    /\ run_dag run dag_order w
       = (map (fun t => (t, success)) dag_order,
          let report := report_text (report_time run) df in
          mkWorld (mkXCom (Some A) (Some C) (Some R) (Some top))
                  (Some report) db' (Some report) (Some df)
                  (w_outbox w
                   ++ [ResultsMail ["test@example.com"] results_subject
                         (html_content (ds run) report) report df])).
Proof.
  intros Hf Htop Hst.
  destruct (persist_stored top (clock run) (w_db w) Hst) as [t' [Hp Hrows]].
  destruct (read_ranking_rows t') as [df [Hread _]].
  exists (Some t'), df. repeat split; auto.
  unfold run_dag, dag_order. cbn [fold_left].
  erewrite run_task_success;
    [|reflexivity|cbn [python_callable]; unfold extract_athletes_data;
                  rewrite Hf; reflexivity].
  erewrite run_task_success;
    [|reflexivity|cbn [python_callable]; unfold extract_coaches_data;
                  rewrite Hf; reflexivity].
  erewrite run_task_success;
    [|reflexivity|cbn [python_callable]; unfold extract_results_data;
                  rewrite Hf; reflexivity].
  erewrite run_task_success;
    [|reflexivity|cbn [python_callable]; unfold transform_step, transform_data;
                  cbn; rewrite Htop; reflexivity].
  erewrite run_task_success;
    [|reflexivity|cbn [python_callable]; unfold load_step;
                  rewrite load_to_database_persist;
                  cbn -[persist]; rewrite Hp; reflexivity].
  erewrite run_task_success;
    [|reflexivity|cbn [python_callable]; unfold generate_report;
                  cbn -[read_ranking report_text]; rewrite Hread;
                  reflexivity].
  erewrite run_task_success; [|reflexivity|reflexivity].
  reflexivity.
Qed.
(** X9: when the transform step cannot return a ranking from what the
    files hold (a file missing or unreadable, a record set empty), the
    run leaves the database, the report file and the CSV file as they
    were and sends no results mail: the load, report and mail tasks are
    marked upstream_failed and only failure alerts are added to the
    mails, at least one. *)
Theorem run_dag_failure (run : Run) (w : World) (e : Exception) :
  compute_top_k (records_of (results_json (files run)))
                (records_of (athletes_csv (files run)))
                (records_of (coaches_xlsx (files run))) = Raise e ->
  let states := fst (run_dag run dag_order w) in
  let w' := snd (run_dag run dag_order w) in
  w_db w' = w_db w
  /\ w_report_file w' = w_report_file w
  /\ w_csv_file w' = w_csv_file w
  /\ Forall (fun t => state_of states t = Some upstream_failed)
            [load_task; report_task; email_task]
  /\ exists alerts,
       w_outbox w' = w_outbox w ++ alerts
       /\ alerts <> []
       /\ Forall (fun m => is_results_mail m = false) alerts.
Proof.
  destruct run as [[fa fc fr] clk rt d].
  cbn [files athletes_csv coaches_xlsx results_json].
  intros Hraise. unfold run_dag, dag_order. cbn [fold_left].
  assert (Htransform : forall A C R w0,
             fa = Some A -> fc = Some C -> fr = Some R ->
             w_xcom w0 = mkXCom (Some A) (Some C) (Some R) None ->
             transform_step (mkRun (mkFiles fa fc fr) clk rt d) w0
             = Failed (PythonError e)).
  { intros A C R w0 -> -> -> Hx. unfold transform_step, transform_data.
    rewrite Hx. cbn -[compute_top_k] in *. now rewrite Hraise. }
  destruct fa as [A|], fc as [C|], fr as [R|];
    repeat first
      [ erewrite run_task_success by reflexivity
      | erewrite run_task_failed
          by first [reflexivity | eapply Htransform; reflexivity]
      | rewrite run_task_upstream_failed by reflexivity ];
    cbn [fst snd];
    (split; [reflexivity|]);
    (split; [reflexivity|]);
    (split; [reflexivity|]);
    (split; [repeat constructor|]);
    cbn [w_outbox send_alert set_xcom new_run];
    rewrite <- ?app_assoc;
    (eexists; split; [reflexivity|]);
    (split; [simpl; discriminate | repeat constructor]).
Qed.
End DagFacts.

(** ** The load step: row ids and time stamps *)

Lemma new_rows_ids (clock : nat -> Z) (es : list RankingEntry) :
  forall (i : nat) (next : Z),
  map row_id (new_rows clock i next es)
  = map (fun k => next + Z.of_nat k) (seq 0 (length es)).
Proof.
  induction es as [|e es IH]; intros i next; simpl; [reflexivity|].
  rewrite IH, <- seq_shift, map_map. f_equal; [lia|].
  apply map_ext. intros k. lia.
Qed.

Lemma new_rows_dates (clock : nat -> Z) (es : list RankingEntry) :
  forall (i : nat) (next : Z),
  map analysis_date (new_rows clock i next es)
  = map clock (seq i (length es)).
Proof.
  induction es as [|e es IH]; intros i next; simpl; [reflexivity|].
  now rewrite IH.
Qed.

(** X10: after a load into a store with room for it, whose counter is
    not negative, the k-th row has the id counter + 1 + k, where counter
    is the AUTOINCREMENT counter before the load, and the time stamp of
    its own insert; the counter ends on the last id.  Ids are therefore
    never reused from one run to the next, and no row keeps the date of
    an earlier run. *)
Theorem load_ids_and_dates (entries : list RankingEntry) (clock : nat -> Z)
    (db : Database) :
  0 <= counter db ->
  storable db entries = true ->
  exists t',
    persist entries clock db = Ok (Some t')
    /\ map row_id (rows t')
       = map (fun k => counter db + 1 + Z.of_nat k) (seq 0 (length entries))
    /\ map analysis_date (rows t') = map clock (seq 0 (length entries))
    /\ sqlite_sequence t' = counter db + Z.of_nat (length entries).
Proof.
  intros H0 Hst.
  destruct (load_result entries clock db Hst) as [s' [Hp [Hne He]]].
  eexists. split; [exact Hp|]. cbn [rows sqlite_sequence].
  rewrite new_rows_ids, new_rows_dates, Z.max_l by exact H0.
  repeat split. destruct entries as [|e es].
  - rewrite He by reflexivity. cbn. lia.
  - rewrite Hne by discriminate. lia.
Qed.

(** ** check_results.py: facts *)

Lemma filter_first {X} (p : X -> bool) (l : list X) (c : X) (rest : list X) :
  filter p l = c :: rest ->
  exists before after,
    l = before ++ c :: after
    /\ Forall (fun x => p x = false) before
    /\ p c = true.
Proof.
  induction l as [|x t IH]; simpl; [discriminate|].
  destruct (p x) eqn:E.
  - intros Hf. injection Hf as -> _. exists [], t. repeat split; auto.
  - intros Hf. destruct (IH Hf) as [before [after [-> [Hb Hc]]]].
    exists (x :: before), after. repeat split; auto.
Qed.

Lemma filter_none {X} (p : X -> bool) (l : list X) :
  filter p l = [] -> Forall (fun x => p x = false) l.
Proof.
  induction l as [|x t IH]; simpl; [constructor|].
  destruct (p x) eqn:E; [discriminate|]. intros Hf. constructor; auto.
Qed.

(** No line of [s.split('\n')] holds a line end, and joining the lines
    with line ends gives [s] back. *)
Lemma split_lines_no_nl (s : string) :
  Forall (fun line => count_nl line = 0%nat) (split_lines s).
Proof.
  induction s as [|c s IH]; simpl; [repeat constructor|].
  destruct (Ascii.eqb c "010"%char) eqn:E; [now constructor|].
  destruct (split_lines s) as [|line rest]; simpl.
  - repeat constructor. simpl. now rewrite E.
  - inversion IH; subst. constructor; [|assumption].
    simpl. rewrite E. assumption.
Qed.

Lemma split_lines_join (s : string) : String.concat nl (split_lines s) = s.
Proof.
  induction s as [|c s IH]; simpl; [reflexivity|].
  destruct (Ascii.eqb_spec c "010"%char) as [->|Hc].
  - simpl. destruct (split_lines s) as [|line rest] eqn:E.
    + now destruct s.
    + simpl in *. now rewrite IH.
  - destruct (split_lines s) as [|line rest] eqn:E.
    + now destruct s.
    + simpl in *. destruct rest; simpl in *; now rewrite <- IH.
Qed.

(** X11: from the names [docker ps] prints, the script takes the first
    line that contains "scheduler", a single line, and takes none
    exactly when no line does. *)
Theorem check_docker_container_first (out : string) :
  match check_docker_container (Stdout out) with
  | Some c =>
      exists before after,
        split_lines (strip out) = before ++ c :: after
        /\ Forall (fun x => contains "scheduler" x = false) before
        /\ contains "scheduler" c = true
        /\ count_nl c = 0%nat
  | None =>
      Forall (fun x => contains "scheduler" x = false)
             (split_lines (strip out))
  end.
Proof.
  unfold check_docker_container.
  destruct (filter _ (split_lines (strip out))) as [|c rest] eqn:E.
  - now apply filter_none.
  - destruct (filter_first _ _ E) as [before [after [Hl [Hb Hc]]]].
    exists before, after. repeat split; auto.
    pose proof (split_lines_no_nl (strip out)) as Hnl.
    rewrite Hl in Hnl. apply Forall_app in Hnl. destruct Hnl as [_ Hnl].
    now inversion Hnl.
Qed.

Lemma wrap64_small (z : Z) : - 2 ^ 63 <= z < 2 ^ 63 -> wrap64 z = z.
Proof.
  intros Hz. unfold wrap64. rewrite Z.mod_small; lia.
Qed.

Lemma sum_counts_perm (l1 l2 : list Row) :
  Permutation l1 l2 ->
  fold_right Z.add 0 (map row_first_places l1)
  = fold_right Z.add 0 (map row_first_places l2).
Proof. induction 1; simpl; lia. Qed.

Section CheckFacts.
Context `{OrderBy}.

Lemma order_by_head_max (rs : list Row) (best : Row) (rest : list Row) :
  order_by_desc rs = best :: rest ->
  In best rs
  /\ Forall (fun r => row_first_places r <= row_first_places best) rs.
Proof.
  intros E. split.
  - apply (Permutation_in _ (order_by_perm rs)). rewrite E. now left.
  - pose proof (order_by_sorted rs) as Hs. rewrite E in Hs. simpl in Hs.
    inversion Hs as [|? ? _ Hbest]; subst.
    apply Forall_forall. intros r Hr.
    apply (Permutation_in _ (Permutation_sym (order_by_perm rs))) in Hr.
    rewrite E in Hr. destruct Hr as [<-|Hr]; [lia|].
    rewrite Forall_forall in Hbest. apply Hbest. now apply in_map.
Qed.

Lemma inspect_database_stats_aux (t : Table) :
  rows t <> [] ->
  exists df best,
    inspect_database (Some t)
    = [TablesFound (table_names (Some t)); ResultsTable df;
       TotalFirstPlaces
         (wrap64 (fold_right Z.add 0 (map row_first_places (rows t))));
       BestCoach (row_coach_name best) (row_first_places best)]
    /\ In best (rows t)
    /\ Forall (fun r => row_first_places r <= row_first_places best) (rows t).
Proof.
  intros Hne. unfold inspect_database.
  destruct (order_by_desc (rows t)) as [|best rest] eqn:E.
  - exfalso. apply Hne.
    apply Permutation_nil. rewrite <- E. apply order_by_perm.
  - destruct (order_by_head_max _ E) as [Hin Hmax].
    exists (best :: rest), best. rewrite <- E. repeat split; auto.
    cbn [table_names app]. do 3 f_equal.
    now rewrite (sum_counts_perm (order_by_perm (rows t))).
Qed.

(** X12: on a table with rows the script prints the wrapped sum of all
    stored counts, which is their sum when that fits int64, and names
    as best coach a stored row whose count no stored row exceeds. *)
Theorem inspect_database_stats (t : Table) :
  rows t <> [] ->
  exists df best,
    inspect_database (Some t)
    = [TablesFound (table_names (Some t)); ResultsTable df;
       TotalFirstPlaces
         (wrap64 (fold_right Z.add 0 (map row_first_places (rows t))));
       BestCoach (row_coach_name best) (row_first_places best)]
    /\ Permutation df (rows t)
    /\ In best (rows t)
    /\ Forall (fun r => row_first_places r <= row_first_places best) (rows t)
    /\ (- 2 ^ 63 <= fold_right Z.add 0 (map row_first_places (rows t)) < 2 ^ 63
        -> wrap64 (fold_right Z.add 0 (map row_first_places (rows t)))
           = fold_right Z.add 0 (map row_first_places (rows t))).
Proof.
  intros Hne. unfold inspect_database.
  destruct (order_by_desc (rows t)) as [|best rest] eqn:E.
  - exfalso. apply Hne.
    apply Permutation_nil. rewrite <- E. apply order_by_perm.
  - destruct (order_by_head_max _ E) as [Hin Hmax].
    exists (best :: rest), best. rewrite <- E. repeat split; auto.
    + cbn [table_names app]. do 3 f_equal.
      now rewrite (sum_counts_perm (order_by_perm (rows t))).
    + apply order_by_perm.
    + apply wrap64_small.
Qed.

Lemma inspect_database_empty (t : Table) :
  rows t = [] ->
  inspect_database (Some t)
  = [TablesFound (table_names (Some t)); ResultsTable [];
     TotalFirstPlaces 0;
     CheckError "single positional indexer is out-of-bounds"].
Proof.
  intros E. unfold inspect_database. rewrite E.
  assert (E0 : order_by_desc [] = [])
    by (apply Permutation_nil, Permutation_sym, order_by_perm).
  now rewrite E0.
Qed.

(** X13: after the load of an empty ranking, which a run without any
    first place stores, the script finds the table empty: it prints a
    total of 0 and then the caught IndexError instead of a best
    coach. *)
Theorem check_after_empty_load (clock : nat -> Z) (db : Database) :
  exists t',
    persist [] clock db = Ok (Some t')
    /\ inspect_database (Some t')
       = [TablesFound (table_names (Some t')); ResultsTable [];
          TotalFirstPlaces 0;
          CheckError "single positional indexer is out-of-bounds"].
Proof.
  exists (mkTable [] (counter db)). split; [apply persist_empty|].
  now apply inspect_database_empty.
Qed.

(** X14: without a local copy, the script copies the database out of
    the scheduler container and, for a stored ranking in non-increasing
    order, names as best coach an entry of the ranking that has the
    count of its first entry. *)
Theorem check_database_after_copy (h : Host) (c : string) (t : Table)
    (e : RankingEntry) (rest : list RankingEntry) :
  local_db h = None ->
  check_docker_container (docker_ps h) = Some c ->
  container_db h c = Some (Some t) ->
  map entry_of_row (rows t) = e :: rest ->
  sorted_desc (e :: rest) ->
  exists n said,
    check_database h = said ++ [BestCoach n (first_places e)]
    /\ In (mkEntry n (first_places e)) (e :: rest).
Proof.
  intros Hlocal Hc Hcopy Hrows Hsorted.
  assert (Hne : rows t <> []) by (intros E; now rewrite E in Hrows).
  destruct (inspect_database_stats_aux t Hne) as [df [best [Hi [Hin Hmax]]]].
  unfold check_database, find_database, copy_db_from_container.
  rewrite Hlocal, Hc, Hcopy, Hi.
  assert (Hbest : row_first_places best = first_places e).
  { apply Z.le_antisymm.
    - apply sorted_desc_keys in Hsorted. simpl in Hsorted.
      inversion Hsorted as [|? ? _ He]; subst.
      apply (in_map entry_of_row) in Hin. rewrite Hrows in Hin.
      destruct Hin as [E|Hin]; [rewrite E; simpl; lia|].
      rewrite Forall_forall in He.
      apply (He (row_first_places best)).
      now apply (in_map first_places) in Hin.
    - assert (He : In e (map entry_of_row (rows t)))
        by (rewrite Hrows; now left).
      apply in_map_iff in He. destruct He as [r [<- Hr]].
      rewrite Forall_forall in Hmax. now apply Hmax. }
  exists (row_coach_name best).
  exists ([DbNotFoundLocally; SchedulerFound c; CopyingDb c; DbCopied]
          ++ [TablesFound (table_names (Some t)); ResultsTable df;
              TotalFirstPlaces
                (wrap64 (fold_right Z.add 0
                           (map row_first_places (rows t))))]).
  split.
  - rewrite <- Hbest. reflexivity.
  - rewrite <- Hrows, <- Hbest.
    now apply (in_map entry_of_row) in Hin.
Qed.
End CheckFacts.

(** ** The order of the extract tasks *)

Lemma perm3_cases {X} (x y z : X) (l : list X) :
  Permutation [x; y; z] l ->
  l = [x; y; z] \/ l = [x; z; y] \/ l = [y; x; z]
  \/ l = [y; z; x] \/ l = [z; x; y] \/ l = [z; y; x].
Proof.
  intros Hp.
  destruct (Permutation_vs_cons_inv (Permutation_sym Hp)) as [l1 [l2 ->]].
  apply Permutation_cons_app_inv in Hp.
  apply Permutation_length_2_inv in Hp.
  destruct l1 as [|a [|b [|c l1]]]; simpl in *;
    destruct Hp as [Hp|Hp]; try discriminate;
    try (injection Hp as -> ->); try (injection Hp as -> -> ->);
    try (injection Hp as -> -> Hp; destruct l1; discriminate);
    subst; auto 10.
Qed.

Lemma state_of_app (states : list (Task * TaskState)) (t u : Task)
    (st : TaskState) :
  state_of (states ++ [(t, st)]) u
  = match state_of states u with
    | Some x => Some x
    | None => if Task_eqb t u then Some st else None
    end.
Proof.
  unfold state_of. induction states as [|[t0 s0] rest IH]; simpl.
  - now destruct (Task_eqb t u).
  - destruct (Task_eqb t0 u); [reflexivity | exact IH].
Qed.

Lemma forallb_pointwise {X} (p q : X -> bool) (l : list X) :
  (forall x, p x = q x) -> forallb p l = forallb q l.
Proof.
  intros Hpq. induction l as [|x t IH]; simpl; [reflexivity|].
  now rewrite Hpq, IH.
Qed.

Section ExtractOrder.
Context `{ArgSort} `{OrderBy}.

Lemma run_task_same_states (run : Run) (s1 s2 : list (Task * TaskState))
    (w : World) (t : Task) :
  (forall u, state_of s1 u = state_of s2 u) ->
  (forall u, state_of (fst (run_task run (s1, w) t)) u
             = state_of (fst (run_task run (s2, w) t)) u)
  /\ snd (run_task run (s1, w) t) = snd (run_task run (s2, w) t).
Proof.
  intros Hs. unfold run_task. cbv beta iota.
  assert (E : forallb (fun u => is_success (state_of s1 u)) (upstream t)
              = forallb (fun u => is_success (state_of s2 u)) (upstream t))
    by (apply forallb_pointwise; intros u; now rewrite Hs).
  rewrite E. clear E.
  destruct (forallb _ (upstream t));
    [destruct (attempt retries t run w) as [state w']|];
    (split; [|reflexivity]); intros u; cbn [fst];
    now rewrite !state_of_app, Hs.
Qed.

Lemma run_tasks_same_states (run : Run) (ts : list Task) :
  forall (s1 s2 : list (Task * TaskState)) (w : World),
  (forall u, state_of s1 u = state_of s2 u) ->
  (forall u, state_of (fst (fold_left (run_task run) ts (s1, w))) u
             = state_of (fst (fold_left (run_task run) ts (s2, w))) u)
  /\ snd (fold_left (run_task run) ts (s1, w))
     = snd (fold_left (run_task run) ts (s2, w)).
Proof.
  induction ts as [|t ts IH]; intros s1 s2 w Hs; [now split|].
  cbn [fold_left].
  destruct (run_task_same_states run s1 s2 w t Hs) as [Hst Hw].
  destruct (run_task run (s1, w) t) as [s1' w1'].
  destruct (run_task run (s2, w) t) as [s2' w2'].
  cbn [fst snd] in *. subst w2'. now apply IH.
Qed.

(** X15: the three extract tasks may run in any order: the run ends
    with the same state for every task, the same XCom, database and
    report files, and the same mails up to their order. *)
Theorem extract_order_irrelevant (run : Run) (w : World) (order : list Task) :
  Permutation
    [extract_athletes_task; extract_coaches_task; extract_results_task]
    order ->
  (forall t, state_of (fst (run_dag run (order ++ chain) w)) t
             = state_of (fst (run_dag run dag_order w)) t)
  /\ same_but_mail_order (snd (run_dag run (order ++ chain) w))
                         (snd (run_dag run dag_order w)).
Proof.
  intros Hp. apply perm3_cases in Hp.
  change dag_order
    with ([extract_athletes_task; extract_coaches_task; extract_results_task]
          ++ chain).
  unfold run_dag. rewrite !fold_left_app.
  destruct run as [[fa fc fr] clk rt d].
  assert (Hall : forall s1 s2 w0,
             (forall u, state_of s1 u = state_of s2 u) ->
             (forall t,
                 state_of (fst (fold_left
                                  (run_task (mkRun (mkFiles fa fc fr) clk rt d))
                                  chain (s1, w0))) t
                 = state_of (fst (fold_left
                                    (run_task (mkRun (mkFiles fa fc fr) clk rt d))
                                    chain (s2, w0))) t)
             /\ same_but_mail_order
                  (snd (fold_left
                          (run_task (mkRun (mkFiles fa fc fr) clk rt d))
                          chain (s1, w0)))
                  (snd (fold_left
                          (run_task (mkRun (mkFiles fa fc fr) clk rt d))
                          chain (s2, w0)))).
  { intros s1 s2 w0 Hs.
    destruct (run_tasks_same_states (mkRun (mkFiles fa fc fr) clk rt d)
                chain s1 s2 w0 Hs) as [Hst Hw].
    split; [exact Hst|]. rewrite Hw. repeat split; apply Permutation_refl. }
  destruct Hp as [-> | [-> | [-> | [-> | [-> | ->]]]]];
    destruct fa as [A|], fc as [C|], fr as [R|];
    cbn [fold_left];
    repeat first
      [ erewrite run_task_success by reflexivity
      | erewrite run_task_failed by reflexivity ];
    try (apply Hall; intros u; destruct u; reflexivity);
    unfold chain; cbn [fold_left];
    rewrite !run_task_upstream_failed by reflexivity;
    (split; [intros u; destruct u; reflexivity|]);
    unfold same_but_mail_order;
    cbn [snd w_xcom w_report w_db w_report_file w_csv_file w_outbox
         send_alert set_xcom new_run];
    rewrite <- ?app_assoc;
    repeat split;
    apply Permutation_app_head; cbn [app];
    first [ apply Permutation_refl
          | apply perm_swap
          | apply perm_skip; apply perm_swap
          | eapply Permutation_trans; [apply perm_swap|];
            apply perm_skip; apply perm_swap
          | eapply Permutation_trans; [apply perm_skip, perm_swap|];
            apply perm_swap
          | eapply Permutation_trans; [apply perm_swap|];
            eapply Permutation_trans; [apply perm_skip, perm_swap|];
            apply perm_swap ].
Qed.
End ExtractOrder.

(** ** The further facts on sample inputs *)

Lemma top_k_maximal_witness :
  length [mkEntry "D" 2; mkEntry "A" 1; mkEntry "B" 1] = 3%nat
  /\ forall e, In e [mkEntry "D" 2; mkEntry "A" 1; mkEntry "B" 1] ->
       Z.of_nat (name_count tied_results tied_athletes tied_coaches "C")
       <= first_places e.
Proof.
  apply (@top_k_maximal insertion_ArgSort tied_results tied_athletes
           tied_coaches _ "C").
  - reflexivity.
  - vm_compute. lia.
  - simpl. intuition discriminate.
Defined.

Lemma top_k_sum_witness :
  sum_first_places [mkEntry "D" 2; mkEntry "A" 1; mkEntry "B" 1]
  <= Z.of_nat (length (merged_rows tied_results tied_athletes tied_coaches))
  /\ ((distinct_qualifying_names tied_results tied_athletes tied_coaches
       <= 3)%nat ->
      sum_first_places [mkEntry "D" 2; mkEntry "A" 1; mkEntry "B" 1]
      = Z.of_nat (length (merged_rows tied_results tied_athletes
                            tied_coaches))).
Proof.
  apply (@top_k_sum insertion_ArgSort tied_results tied_athletes tied_coaches).
  reflexivity.
Defined.

Lemma top_k_no_double_count_witness :
  sum_first_places [mkEntry "D" 2; mkEntry "A" 1; mkEntry "B" 1]
  <= Z.of_nat (length (filter qualifies tied_results)).
Proof.
  apply (@top_k_no_double_count insertion_ArgSort tied_results tied_athletes
           tied_coaches).
  - repeat constructor; simpl; intuition discriminate.
  - repeat constructor; simpl; intuition discriminate.
  - reflexivity.
Defined.

Lemma non_qualifying_row_ignored_witness :
  @compute_top_k insertion_ArgSort
     ([mkResult 1 1] ++ mkResult 2 4 :: [mkResult 3 1])
     spec_athletes spec_coaches
  = @compute_top_k insertion_ArgSort ([mkResult 1 1] ++ [mkResult 3 1])
      spec_athletes spec_coaches.
Proof.
  apply (@non_qualifying_row_ignored insertion_ArgSort);
    [cbn; lia | discriminate].
Defined.

Lemma top_k_input_order_witness :
  @compute_top_k insertion_ArgSort
     [mkResult 1 1; mkResult 2 1; mkResult 3 2]
     [mkAthlete 1 10; mkAthlete 2 10; mkAthlete 3 11]
     [mkCoach 10 "A"; mkCoach 11 "B"]
  = @compute_top_k insertion_ArgSort
      [mkResult 2 1; mkResult 1 1; mkResult 3 2]
      [mkAthlete 1 10; mkAthlete 3 11; mkAthlete 2 10]
      [mkCoach 11 "B"; mkCoach 10 "A"].
Proof.
  apply (@top_k_input_order insertion_ArgSort).
  - apply perm_swap.
  - apply perm_skip, perm_swap.
  - apply perm_swap.
Defined.

Lemma report_line_count_witness :
  count_nl (report_text "2025-01-01 10:00:00"
              [mkEntry "D" 2; mkEntry "A" 1; mkEntry "B" 1])
  = 7%nat.
Proof.
  apply (@report_line_count "2025-01-01 10:00:00"
           [mkEntry "D" 2; mkEntry "A" 1; mkEntry "B" 1]).
  - reflexivity.
  - repeat constructor.
Defined.

Lemma run_dag_success_witness :
  fst (@run_dag insertion_ArgSort stable_OrderBy sample_run dag_order
         sample_world)
  = map (fun t => (t, success)) dag_order.
Proof.
  destruct (@run_dag_success insertion_ArgSort stable_OrderBy sample_run
              sample_world tied_results tied_athletes tied_coaches
              [mkEntry "D" 2; mkEntry "A" 1; mkEntry "B" 1]
              eq_refl eq_refl eq_refl)
    as [db' [df [_ [_ [_ E]]]]].
  rewrite E. reflexivity.
Defined.

Lemma run_dag_failure_witness :
  w_db (snd (@run_dag insertion_ArgSort stable_OrderBy failing_run dag_order
               sample_world))
  = w_db sample_world.
Proof.
  apply (@run_dag_failure insertion_ArgSort stable_OrderBy failing_run
           sample_world (KeyError "place")).
  reflexivity.
Defined.

Lemma load_ids_and_dates_witness :
  exists t',
    persist [mkEntry "D" 2; mkEntry "A" 1] (fun i => 100 + Z.of_nat i)
            (Some (mkTable [mkRow 1 "Z" 9 5] 1))
    = Ok (Some t')
    /\ map row_id (rows t') = map (fun k => 1 + 1 + Z.of_nat k) (seq 0 2)
    /\ map analysis_date (rows t')
       = map (fun i => 100 + Z.of_nat i) (seq 0 2)
    /\ sqlite_sequence t' = 1 + Z.of_nat 2.
Proof.
  apply (@load_ids_and_dates [mkEntry "D" 2; mkEntry "A" 1]
           (fun i => 100 + Z.of_nat i) (Some (mkTable [mkRow 1 "Z" 9 5] 1))).
  - cbn. lia.
  - reflexivity.
Defined.

Lemma inspect_database_stats_witness :
  exists df best,
    @inspect_database stable_OrderBy (Some sample_table)
    = [TablesFound (table_names (Some sample_table)); ResultsTable df;
       TotalFirstPlaces
         (wrap64 (fold_right Z.add 0
                    (map row_first_places (rows sample_table))));
       BestCoach (row_coach_name best) (row_first_places best)]
    /\ Permutation df (rows sample_table)
    /\ In best (rows sample_table)
    /\ Forall (fun r => row_first_places r <= row_first_places best)
              (rows sample_table)
    /\ (- 2 ^ 63
        <= fold_right Z.add 0 (map row_first_places (rows sample_table))
        < 2 ^ 63
        -> wrap64 (fold_right Z.add 0
                     (map row_first_places (rows sample_table)))
           = fold_right Z.add 0 (map row_first_places (rows sample_table))).
Proof.
  apply (@inspect_database_stats stable_OrderBy sample_table).
  discriminate.
Defined.

Lemma check_database_after_copy_witness :
  exists n said,
    @check_database stable_OrderBy sample_host
    = said ++ [BestCoach n 2]
    /\ In (mkEntry n 2) [mkEntry "D" 2; mkEntry "A" 1; mkEntry "B" 1].
Proof.
  apply (@check_database_after_copy stable_OrderBy sample_host
           "airflow-scheduler-1" sample_table (mkEntry "D" 2)
           [mkEntry "A" 1; mkEntry "B" 1]).
  - reflexivity.
  - reflexivity.
  - reflexivity.
  - reflexivity.
  - repeat constructor; simpl; lia.
Defined.

Lemma extract_order_irrelevant_witness :
  same_but_mail_order
    (snd (@run_dag insertion_ArgSort stable_OrderBy failing_run
            ([extract_results_task; extract_coaches_task;
              extract_athletes_task] ++ chain)
            sample_world))
    (snd (@run_dag insertion_ArgSort stable_OrderBy failing_run dag_order
            sample_world)).
Proof.
  apply (@extract_order_irrelevant insertion_ArgSort stable_OrderBy
           failing_run sample_world
           [extract_results_task; extract_coaches_task;
            extract_athletes_task]).
  eapply Permutation_trans; [apply perm_swap|].
  eapply Permutation_trans; [apply perm_skip, perm_swap|].
  apply perm_swap.
Defined.

(** The sample run end to end, and what the script then prints from the
    scheduler container. *)
Example sample_run_stored :
  stored_entries
    (w_db (snd (@run_dag insertion_ArgSort stable_OrderBy sample_run dag_order
                  sample_world)))
  = [mkEntry "D" 2; mkEntry "A" 1; mkEntry "B" 1]
  /\ w_db (snd (@run_dag insertion_ArgSort stable_OrderBy sample_run
                  dag_order sample_world))
     = Some sample_table.
Proof. split; reflexivity. Qed.

Example sample_check :
  @check_database stable_OrderBy sample_host
  = [DbNotFoundLocally; SchedulerFound "airflow-scheduler-1";
     CopyingDb "airflow-scheduler-1"; DbCopied;
     TablesFound ["top_coaches"; "sqlite_sequence"];
     ResultsTable (rows sample_table); TotalFirstPlaces 4;
     BestCoach "D" 2].
Proof. reflexivity. Qed.

Example failing_run_states :
  fst (@run_dag insertion_ArgSort stable_OrderBy failing_run dag_order
         sample_world)
  = [(extract_athletes_task, success);
     (extract_coaches_task, failed (Unreadable coaches_path));
     (extract_results_task, success);
     (transform_task, upstream_failed); (load_task, upstream_failed);
     (report_task, upstream_failed); (email_task, upstream_failed)].
Proof. reflexivity. Qed.

(** ** The tie-break of the sort *)

(** Two sorts put the same counts in the same places. *)
Lemma sort_values_desc_counts (AS1 AS2 : ArgSort) (df : list RankingEntry) :
  map first_places (@sort_values_desc AS1 df)
  = map first_places (@sort_values_desc AS2 df).
Proof.
  apply (@sorted_perm_unique _ (fun x y : Z => y <= x)).
  - intros x y Hxy Hyx. lia.
  - apply (@sort_values_desc_sorted AS1).
  - apply (@sort_values_desc_sorted AS2).
  - apply Permutation_map.
    eapply Permutation_trans; [apply (@sort_values_desc_perm AS1)|].
    apply Permutation_sym, (@sort_values_desc_perm AS2).
Qed.

(** C8: two runs of the transform step on the same inputs, each with a
    sort of its own, return the same ranking, order included, when the
    two sorts break ties alike; whatever the tie-breaks, the two runs
    raise the same exception or return rankings with the same counts in
    the same places, and the same ranking when no two coach names have
    the same count.  The tie-break is thus the only freedom. *)
Theorem top_k_deterministic (AS1 AS2 : ArgSort) (R : list Result)
    (A : list Athlete) (C : list Coach) :
  ((forall ks, @argsort AS1 ks = @argsort AS2 ks) ->
   @compute_top_k AS1 R A C = @compute_top_k AS2 R A C)
  /\ (NoDup (map first_places
               (groupby_size (map m_coach_name (merged_rows R A C)))) ->
      @compute_top_k AS1 R A C = @compute_top_k AS2 R A C)
  /\ (forall out1 out2,
         @compute_top_k AS1 R A C = Ok out1 ->
         @compute_top_k AS2 R A C = Ok out2 ->
         map first_places out1 = map first_places out2)
  /\ (forall e, @compute_top_k AS1 R A C = Raise e
                <-> @compute_top_k AS2 R A C = Raise e).
Proof.
  destruct R as [|r R0]; [repeat split; intros; try assumption; discriminate|].
  destruct A as [|a A0]; [repeat split; intros; try assumption; discriminate|].
  destruct C as [|c C0]; [repeat split; intros; try assumption; discriminate|].
  rewrite (@compute_top_k_frames AS1), (@compute_top_k_frames AS2)
    by discriminate.
  set (groups := groupby_size (map m_coach_name
                                   (merged_rows (r :: R0) (a :: A0) (c :: C0)))).
  unfold top_coaches_of. fold groups. repeat split; try discriminate.
  - intros Hties. unfold sort_values_desc, nargsort_desc.
    now rewrite Hties.
  - intros Hnd. do 2 f_equal.
    apply (perm_same_keys first_places).
    + eapply Permutation_trans; [apply (@sort_values_desc_perm AS1)|].
      apply Permutation_sym, (@sort_values_desc_perm AS2).
    + eapply Permutation_NoDup; [|exact Hnd].
      apply Permutation_map, Permutation_sym, (@sort_values_desc_perm AS2).
    + apply sort_values_desc_counts.
  - intros out1 out2 E1 E2.
    assert (H1 : out1 = firstn 3 (@sort_values_desc AS1 groups))
      by (unfold head in E1; congruence).
    assert (H2 : out2 = firstn 3 (@sort_values_desc AS2 groups))
      by (unfold head in E2; congruence).
    rewrite H1, H2, <- !firstn_map. f_equal.
    apply sort_values_desc_counts.
Qed.

Lemma top_k_deterministic_witness :
  map first_places [mkEntry "D" 2; mkEntry "A" 1; mkEntry "B" 1]
  = map first_places [mkEntry "D" 2; mkEntry "C" 1; mkEntry "B" 1]
  /\ @compute_top_k insertion_ArgSort spec_results spec_athletes spec_coaches
     = @compute_top_k reversing_ArgSort spec_results spec_athletes
         spec_coaches.
Proof.
  split.
  - apply (proj1 (proj2 (proj2
             (@top_k_deterministic insertion_ArgSort reversing_ArgSort
                tied_results tied_athletes tied_coaches))));
      reflexivity.
  - apply (proj1 (proj2
             (@top_k_deterministic insertion_ArgSort reversing_ArgSort
                spec_results spec_athletes spec_coaches))).
    vm_compute. constructor; [intros []|constructor].
Defined.

(** On a tie among three coaches the two sorts of this file return
    different rankings, with the same counts. *)
Example tie_break_shows :
  @compute_top_k insertion_ArgSort tied_results tied_athletes tied_coaches
  = Ok [mkEntry "D" 2; mkEntry "A" 1; mkEntry "B" 1]
  /\ @compute_top_k reversing_ArgSort tied_results tied_athletes tied_coaches
     = Ok [mkEntry "D" 2; mkEntry "C" 1; mkEntry "B" 1].
Proof. split; reflexivity. Qed.

(** ** The load step on sample stores *)

(** C6, as stated, fails: with the AUTOINCREMENT counter at 2^63 - 1
    the insert is refused; the load raises and the table holds the old
    ranking, not the supplied entries. *)
Lemma persist_full_store_fails :
  let full := Some (mkTable [mkRow (2 ^ 63 - 1) "Z" 9 5] (2 ^ 63 - 1)) in
  persist [mkEntry "A" 2] (fun _ => 100) full = Raise database_full
  /\ stored_entries
       (file_after (load_statements [mkEntry "A" 2] (fun _ => 100))
                   (connect full))
     = [mkEntry "Z" 9]
  /\ [mkEntry "Z" 9] <> [mkEntry "A" 2].
Proof. repeat split. discriminate. Qed.


Lemma persist_overwrites_witness :
  storable (Some (mkTable [mkRow 1 "Z" 9 5] 1))
           [mkEntry "D" 2; mkEntry "A" 1] = true
  /\ exists db',
       persist [mkEntry "D" 2; mkEntry "A" 1] (fun i => 100 + Z.of_nat i)
               (Some (mkTable [mkRow 1 "Z" 9 5] 1)) = Ok db'
       /\ stored_entries db' = [mkEntry "D" 2; mkEntry "A" 1].
Proof.
  split; [reflexivity|].
  apply (@persist_overwrites [mkEntry "D" 2; mkEntry "A" 1]
           (fun i => 100 + Z.of_nat i) (Some (mkTable [mkRow 1 "Z" 9 5] 1))).
  reflexivity.
Defined.


Lemma report_after_load_witness :
  exists db' df,
    persist [mkEntry "D" 2; mkEntry "A" 1] (fun i => 100 + Z.of_nat i) None
    = Ok db'
    /\ @read_ranking stable_OrderBy db' = Done df
    /\ Permutation df [mkEntry "D" 2; mkEntry "A" 1]
    /\ sorted_desc df
    /\ (sorted_desc [mkEntry "D" 2; mkEntry "A" 1] ->
        map first_places df
        = map first_places [mkEntry "D" 2; mkEntry "A" 1])
    /\ (sorted_desc [mkEntry "D" 2; mkEntry "A" 1] ->
        NoDup (map first_places [mkEntry "D" 2; mkEntry "A" 1]) ->
        df = [mkEntry "D" 2; mkEntry "A" 1]).
Proof.
  apply (@report_after_load stable_OrderBy [mkEntry "D" 2; mkEntry "A" 1]
           (fun i => 100 + Z.of_nat i) None).
  reflexivity.
Defined.

(** A run on a store whose counter is exhausted: the load task fails
    twice, the store keeps the old ranking, and the report and mail
    tasks do not run. *)
Example full_store_run :
  let w := mkWorld (mkXCom None None None None) None
                   (Some (mkTable [mkRow (2 ^ 63 - 1) "Z" 9 5] (2 ^ 63 - 1)))
                   None None [] in
  let result := @run_dag insertion_ArgSort stable_OrderBy sample_run
                  dag_order w in
  map (fun t => state_of (fst result) t) chain
  = [Some success;
     Some (failed (PythonError database_full));
     Some upstream_failed; Some upstream_failed]
  /\ stored_entries (w_db (snd result)) = [mkEntry "Z" 9]
  /\ w_outbox (snd result) = [FailureAlert alert_to "load_to_database"].
Proof. repeat split. Qed.
